(** * The echo tool of [examples/utcp_tools/echo.py]

    The script reads [sys.argv[1]], decodes it with [json.loads], looks up
    the key [text] with [dict.get], and prints
    [json.dumps({"content": f"echo: {text}"})].

    The development has these parts:
    - Python [str] values as lists of code points, and the literals used;
    - the parts of the [json] module the script calls: the string encoder
      of [json.encoder] and the scanner of [json.decoder]/[json.scanner];
    - exceptions and output, as a small monad;
    - [str()]/[repr()] of the values a JSON document decodes to, and the
      script itself;
    - the lemmas on the encoder and the scanner, and the properties of the
      script.

    Two limits of the interpreter are part of the model, because
    [json.loads] can meet them: the recursion limit, which a deeply nested
    document hits in the scanner, and the limit on the number of digits of
    an [int].  They are parameters, as are [repr] of a [float] and the
    Unicode table behind [str.isprintable].  The traceback the interpreter
    writes for an uncaught exception is represented by the exception
    itself. *)

From Stdlib Require Import Ascii String List NArith ZArith Bool Lia.
From Stdlib Require Decimal DecimalN.
Import ListNotations.

#[local] Set Warnings "-register-all".

Local Open Scope N_scope.

(* ------------------------------------------------------------------ *)
(** ** Python strings *)

(** A Python [str] is a sequence of code points. *)
Definition pystr := list N.

Definition ord (a : ascii) : N := N_of_ascii a.

(** A [str] literal made of ASCII characters. *)
Definition U (s : string) : pystr := map ord (list_ascii_of_string s).

Definition dquote : N := 34.
Definition backslash : N := 92.

(** JSON text is full of double quotes; [J] reads an apostrophe as a
    double quote so that a document can be written down as one literal:
    [J "{'text': 'hi'}"] is the eleven-plus code points of
    [{"text": "hi"}]. *)
Definition J (s : string) : pystr :=
  map (fun c => if c =? ord "'" then dquote else c) (U s).

(** [Q] is [J] for texts that have apostrophes of their own, which are
    written as backquotes. *)
Definition Q (s : string) : pystr :=
  map (fun c => if c =? ord "'" then dquote
                else if c =? ord "`" then ord "'" else c) (U s).

Fixpoint pystr_eqb (a b : pystr) : bool :=
  match a, b with
  | [], [] => true
  | x :: a', y :: b' => (x =? y) && pystr_eqb a' b'
  | _, _ => false
  end.

(** [s.startswith(p)], returning what follows the prefix. *)
Fixpoint strip_prefix (p s : pystr) : option pystr :=
  match p with
  | [] => Some s
  | x :: p' =>
      match s with
      | [] => None
      | y :: s' => if x =? y then strip_prefix p' s' else None
      end
  end.

(** [sep.join(parts)] *)
Fixpoint join (sep : pystr) (parts : list pystr) : pystr :=
  match parts with
  | [] => []
  | [p] => p
  | p :: rest => p ++ sep ++ join sep rest
  end.

(* ------------------------------------------------------------------ *)
(** ** Digits *)

Definition is_digit (c : N) : bool := (48 <=? c) && (c <=? 57).

(** The lower-case hexadecimal digit of [d < 16]. *)
Definition hexdigit (d : N) : N := if d <? 10 then 48 + d else 87 + d.

(** [format(n, "0<w>x")] for [n < 16^w]: exactly [w] digits. *)
Fixpoint hexpad (w : nat) (n : N) : pystr :=
  match w with
  | O => []
  | S w' => hexpad w' (n / 16) ++ [hexdigit (n mod 16)]
  end.

(** The value of one hexadecimal digit, either case. *)
Definition hexval (c : N) : option N :=
  if is_digit c then Some (c - 48)
  else if (97 <=? c) && (c <=? 102) then Some (c - 87)
  else if (65 <=? c) && (c <=? 70) then Some (c - 55)
  else None.

(** [int(esc, 16)] on the four characters of a [\uXXXX] escape. *)
Definition int16 (a b c d : N) : option N :=
  match hexval a, hexval b, hexval c, hexval d with
  | Some x, Some y, Some z, Some w => Some (((x * 16 + y) * 16 + z) * 16 + w)
  | _, _, _, _ => None
  end.

Fixpoint uint_digits (d : Decimal.uint) : pystr :=
  match d with
  | Decimal.Nil => []
  | Decimal.D0 r => 48 :: uint_digits r
  | Decimal.D1 r => 49 :: uint_digits r
  | Decimal.D2 r => 50 :: uint_digits r
  | Decimal.D3 r => 51 :: uint_digits r
  | Decimal.D4 r => 52 :: uint_digits r
  | Decimal.D5 r => 53 :: uint_digits r
  | Decimal.D6 r => 54 :: uint_digits r
  | Decimal.D7 r => 55 :: uint_digits r
  | Decimal.D8 r => 56 :: uint_digits r
  | Decimal.D9 r => 57 :: uint_digits r
  end.

(** [str(z)] for an [int]. *)
Definition int_str (z : Z) : pystr :=
  match z with
  | Z0 => [48]
  | Zpos p => uint_digits (Pos.to_uint p)
  | Zneg p => ord "-" :: uint_digits (Pos.to_uint p)
  end.

(** [int(lexeme)] for a lexeme made of an optional minus sign and decimal
    digits. *)
Definition digits_value (ds : pystr) : Z :=
  fold_left (fun acc c => (10 * acc + Z.of_N (c - 48))%Z) ds 0%Z.

Definition int_of_lexeme (lex : pystr) : Z :=
  match lex with
  | c :: ds => if c =? ord "-" then (- digits_value ds)%Z else digits_value lex
  | [] => 0%Z
  end.

(* ------------------------------------------------------------------ *)
(** ** [json.encoder]: strings *)

(** The replacement [py_encode_basestring_ascii] makes for one character:
    the pattern [ESCAPE_ASCII] selects the backslash, the double quote and
    everything outside [' '..'~']; [ESCAPE_DCT] gives the short escapes
    and [\u00XX] for the other control characters, and a code point
    beyond the BMP becomes a surrogate pair. *)
Definition encode_char (c : N) : pystr :=
  if c =? dquote then [backslash; dquote]
  else if c =? backslash then [backslash; backslash]
  else if (32 <=? c) && (c <=? 126) then [c]
  else if c =? 8 then [backslash; ord "b"]
  else if c =? 12 then [backslash; ord "f"]
  else if c =? 10 then [backslash; ord "n"]
  else if c =? 13 then [backslash; ord "r"]
  else if c =? 9 then [backslash; ord "t"]
  else if c <? 65536 then backslash :: ord "u" :: hexpad 4 c
  else
    let n := c - 65536 in
    let s1 := N.lor 55296 (N.land (N.shiftr n 10) 1023) in
    let s2 := N.lor 56320 (N.land n 1023) in
    (backslash :: ord "u" :: hexpad 4 s1) ++ (backslash :: ord "u" :: hexpad 4 s2).

Definition encode_basestring_ascii (s : pystr) : pystr :=
  dquote :: flat_map encode_char s ++ [dquote].

(** [json.dumps(d)] with the default options, for a [dict] whose keys and
    values are all [str]: the only shape the script serialises. *)
Definition json_dumps (d : list (pystr * pystr)) : pystr :=
  U "{" ++
  join (U ", ")
    (map (fun kv => encode_basestring_ascii (fst kv) ++ U ": " ++
                    encode_basestring_ascii (snd kv)) d) ++
  U "}".

(* ------------------------------------------------------------------ *)
(** ** [json.decoder]: strings *)

(** The table [BACKSLASH] of one-letter escapes. *)
Definition BACKSLASH (esc : N) : option N :=
  if esc =? dquote then Some dquote
  else if esc =? backslash then Some backslash
  else if esc =? ord "/" then Some (ord "/")
  else if esc =? ord "b" then Some 8
  else if esc =? ord "f" then Some 12
  else if esc =? ord "n" then Some 10
  else if esc =? ord "r" then Some 13
  else if esc =? ord "t" then Some 9
  else None.

Definition is_high_surrogate (u : N) : bool := (55296 <=? u) && (u <=? 56319).
Definition is_low_surrogate (u : N) : bool := (56320 <=? u) && (u <=? 57343).

Definition join_surrogates (hi lo : N) : N :=
  65536 + N.lor (N.shiftl (hi - 55296) 10) (lo - 56320).

Definition push (c : N) (r : option (pystr * pystr)) : option (pystr * pystr) :=
  match r with
  | Some (str, rest) => Some (c :: str, rest)
  | None => None
  end.

(** [scanstring(s, end)] in strict mode, [s] being what follows the
    opening quote.  The result is the decoded string and what follows the
    closing quote; [None] is [JSONDecodeError] (unterminated string,
    control character, bad escape). *)
Fixpoint scanstring (s : pystr) : option (pystr * pystr) :=
  match s with
  | [] => None
  | c :: t =>
      if c =? dquote then Some ([], t)
      else if c =? backslash then
        match t with
        | [] => None
        | esc :: t1 =>
            if esc =? ord "u" then
              match t1 with
              | h1 :: h2 :: h3 :: h4 :: t2 =>
                  match int16 h1 h2 h3 h4 with
                  | None => None
                  | Some uni =>
                      match t2 with
                      | b :: u :: t3 =>
                          if is_high_surrogate uni && (b =? backslash) && (u =? ord "u")
                          then
                            match t3 with
                            | k1 :: k2 :: k3 :: k4 :: t4 =>
                                match int16 k1 k2 k3 k4 with
                                | None => None
                                | Some uni2 =>
                                    if is_low_surrogate uni2
                                    then push (join_surrogates uni uni2) (scanstring t4)
                                    else push uni (scanstring t2)
                                end
                            | _ => None
                            end
                          else push uni (scanstring t2)
                      | _ => push uni (scanstring t2)
                      end
                  end
              | _ => None
              end
            else
              match BACKSLASH esc with
              | Some ch => push ch (scanstring t1)
              | None => None
              end
        end
      else if c <? 32 then None
      else push c (scanstring t)
  end.

(* ------------------------------------------------------------------ *)
(** ** The values a JSON document decodes to *)

(** [None], [bool], [int], [float], [str], [list] and [dict] with [str]
    keys.  A [float] is kept as the text handed to [float()]: its value is
    never inspected, only printed (see [float_repr] below).  A [dict]
    keeps its keys in insertion order, each key once. *)
Inductive pyval : Type :=
| PNone
| PBool (b : bool)
| PInt (z : Z)
| PFloat (lexeme : pystr)
| PStr (s : pystr)
| PList (items : list pyval)
| PDict (items : list (pystr * pyval)).

(** [d.get(k)], [None] standing for the missing key. *)
Fixpoint dict_lookup (d : list (pystr * pyval)) (k : pystr) : option pyval :=
  match d with
  | [] => None
  | (k', v) :: r => if pystr_eqb k' k then Some v else dict_lookup r k
  end.

(** [d[k] = v]: a key already present keeps its place and takes the new
    value. *)
Fixpoint dict_set (d : list (pystr * pyval)) (k : pystr) (v : pyval)
  : list (pystr * pyval) :=
  match d with
  | [] => [(k, v)]
  | (k', v') :: r =>
      if pystr_eqb k' k then (k', v) :: r else (k', v') :: dict_set r k v
  end.

(** [dict(pairs)] *)
Definition dict_of_pairs (pairs : list (pystr * pyval)) : list (pystr * pyval) :=
  fold_left (fun d kv => dict_set d (fst kv) (snd kv)) pairs [].

(* ------------------------------------------------------------------ *)
(** ** [json.scanner] and [json.decoder] *)

Definition is_ws (c : N) : bool :=
  (c =? 32) || (c =? 9) || (c =? 10) || (c =? 13).

(** [WHITESPACE.match(s, end).end()] *)
Fixpoint skip_ws (s : pystr) : pystr :=
  match s with
  | c :: t => if is_ws c then skip_ws t else s
  | [] => []
  end.

(** The longest run of ASCII digits at the head of [s], and the rest. *)
Fixpoint span_digits (s : pystr) : pystr * pystr :=
  match s with
  | c :: t =>
      if is_digit c then let (ds, r) := span_digits t in (c :: ds, r)
      else ([], s)
  | [] => ([], [])
  end.

(** The first group of [NUMBER_RE]: an optional minus sign, then either a
    single zero or a non-zero digit followed by digits. *)
Definition match_integer (s : pystr) : option (pystr * pystr) :=
  let (sign, s0) :=
    match s with
    | c :: t => if c =? ord "-" then ([c], t) else ([], s)
    | [] => ([], [])
    end in
  match s0 with
  | d :: t =>
      if d =? 48 then Some (sign ++ [d], t)
      else if is_digit d then
        let (ds, r) := span_digits t in Some (sign ++ d :: ds, r)
      else None
  | [] => None
  end.

(** The second group: a dot and at least one digit, or nothing. *)
Definition match_frac (s : pystr) : pystr * pystr :=
  match s with
  | c :: t =>
      if c =? ord "." then
        match span_digits t with
        | ([], _) => ([], s)
        | (ds, r) => (c :: ds, r)
        end
      else ([], s)
  | [] => ([], [])
  end.

(** The third group: [e] or [E], an optional sign and at least one digit,
    or nothing. *)
Definition match_exp (s : pystr) : pystr * pystr :=
  match s with
  | c :: t =>
      if (c =? ord "e") || (c =? ord "E") then
        let (sign, t0) :=
          match t with
          | g :: t' => if (g =? ord "-") || (g =? ord "+") then ([g], t') else ([], t)
          | [] => ([], [])
          end in
        match span_digits t0 with
        | ([], _) => ([], s)
        | (ds, r) => (c :: sign ++ ds, r)
        end
      else ([], s)
  | [] => ([], [])
  end.

(** [match_number]: the three groups of [NUMBER_RE] and what follows
    the match. *)
Definition match_number (s : pystr) : option (pystr * pystr * pystr * pystr) :=
  match match_integer s with
  | None => None
  | Some (integer, r0) =>
      let (frac, r1) := match_frac r0 in
      let (exp, r2) := match_exp r1 in
      Some (integer, frac, exp, r2)
  end.

(** The number of digits of an integer lexeme, its sign left out. *)
Definition count_digits (lex : pystr) : N := N.of_nat (length (filter is_digit lex)).

(** [int()] on a decimal text raises [ValueError] when the text has more
    digits than the interpreter's limit [maxd] ([sys.get_int_max_str_digits()],
    zero for no limit); a text of at most 640 digits is never refused. *)
Definition digits_refused (maxd digits : N) : bool :=
  (640 <? digits) && (0 <? maxd) && (maxd <? digits).

(** The conversion the scanner applies to a matched number:
    [int(integer)] when there is neither fraction nor exponent, and
    [float(integer + frac + exp)] otherwise.  [None] is the [ValueError]
    of [int()]. *)
Definition number_value (maxd : N) (integer frac exp : pystr) : option pyval :=
  match frac ++ exp with
  | [] =>
      if digits_refused maxd (count_digits integer) then None
      else Some (PInt (int_of_lexeme integer))
  | _ => Some (PFloat (integer ++ frac ++ exp))
  end.

(** What a scanning function yields: a value and the text that follows
    it; [JSONDecodeError] (to which the decoder turns the scanner's
    [StopIteration] as well); [RecursionError], when a container opens
    deeper than the interpreter allows; the [ValueError] of [int()]; or
    the exhaustion of the budget of this model, which [json_loads] is
    shown never to meet. *)
Inductive scan (A : Type) : Type :=
| Parsed (a : A) (rest : pystr)
| DecodeError
| TooDeep
| TooManyDigits
| NoFuel.
Arguments Parsed {A} a rest.
Arguments DecodeError {A}.
Arguments TooDeep {A}.
Arguments TooManyDigits {A}.
Arguments NoFuel {A}.

(** The scalars of [_scan_once], tried in the scanner's order once the
    string, object and array cases are passed. *)
Definition scan_scalar (maxd : N) (s : pystr) : scan pyval :=
  match strip_prefix (U "null") s with
  | Some r => Parsed PNone r
  | None =>
  match strip_prefix (U "true") s with
  | Some r => Parsed (PBool true) r
  | None =>
  match strip_prefix (U "false") s with
  | Some r => Parsed (PBool false) r
  | None =>
  match match_number s with
  | Some (integer, frac, exp, r) =>
      match number_value maxd integer frac exp with
      | Some v => Parsed v r
      | None => TooManyDigits
      end
  | None =>
  match strip_prefix (U "NaN") s with
  | Some r => Parsed (PFloat (U "nan")) r
  | None =>
  match strip_prefix (U "Infinity") s with
  | Some r => Parsed (PFloat (U "inf")) r
  | None =>
  match strip_prefix (U "-Infinity") s with
  | Some r => Parsed (PFloat (U "-inf")) r
  | None => DecodeError
  end end end end end end end.

(** [scan_once] is [_scan_once]; [object_loop] is the [while True] loop of
    [JSONObject], entered after the opening quote of a key, and
    [array_loop] the one of [JSONArray], entered at the start of an
    element.  [depth] is the number of containers that may still be
    entered, one inside the other, before the interpreter's recursion
    limit is met: the scanner checks it at each opening brace or bracket.
    Every call spends one unit of [fuel]. *)
Fixpoint scan_once (maxd : N) (fuel depth : nat) (s : pystr) {struct fuel}
  : scan pyval :=
  match fuel with
  | O => NoFuel
  | S f =>
      match s with
      | [] => DecodeError
      | c :: t =>
          if c =? dquote then
            match scanstring t with
            | Some (str, r) => Parsed (PStr str) r
            | None => DecodeError
            end
          else if c =? ord "{" then
            match depth with
            | O => TooDeep
            | S d =>
                match skip_ws t with
                | c1 :: t1 =>
                    if c1 =? ord "}" then Parsed (PDict []) t1
                    else if c1 =? dquote then object_loop maxd f d t1 []
                    else DecodeError
                | [] => DecodeError
                end
            end
          else if c =? ord "[" then
            match depth with
            | O => TooDeep
            | S d =>
                match skip_ws t with
                | c1 :: t1 =>
                    if c1 =? ord "]" then Parsed (PList []) t1
                    else array_loop maxd f d (c1 :: t1) []
                | [] => array_loop maxd f d [] []
                end
            end
          else scan_scalar maxd s
      end
  end

with object_loop (maxd : N) (fuel depth : nat) (s : pystr)
       (pairs : list (pystr * pyval)) {struct fuel} : scan pyval :=
  match fuel with
  | O => NoFuel
  | S f =>
      match scanstring s with
      | None => DecodeError
      | Some (key, s1) =>
          match skip_ws s1 with
          | c :: s2 =>
              if c =? ord ":" then
                match scan_once maxd f depth (skip_ws s2) with
                | Parsed value s3 =>
                    let pairs' := pairs ++ [(key, value)] in
                    match skip_ws s3 with
                    | c1 :: s4 =>
                        if c1 =? ord "}" then Parsed (PDict (dict_of_pairs pairs')) s4
                        else if c1 =? ord "," then
                          match skip_ws s4 with
                          | c2 :: s5 =>
                              if c2 =? dquote then object_loop maxd f depth s5 pairs'
                              else DecodeError
                          | [] => DecodeError
                          end
                        else DecodeError
                    | [] => DecodeError
                    end
                | DecodeError => DecodeError
                | TooDeep => TooDeep
                | TooManyDigits => TooManyDigits
                | NoFuel => NoFuel
                end
              else DecodeError
          | [] => DecodeError
          end
      end
  end

with array_loop (maxd : N) (fuel depth : nat) (s : pystr) (values : list pyval)
       {struct fuel} : scan pyval :=
  match fuel with
  | O => NoFuel
  | S f =>
      match scan_once maxd f depth s with
      | Parsed value s1 =>
          let values' := values ++ [value] in
          match skip_ws s1 with
          | c :: s2 =>
              if c =? ord "]" then Parsed (PList values') s2
              else if c =? ord "," then array_loop maxd f depth (skip_ws s2) values'
              else DecodeError
          | [] => DecodeError
          end
      | DecodeError => DecodeError
      | TooDeep => TooDeep
      | TooManyDigits => TooManyDigits
      | NoFuel => NoFuel
      end
  end.

(** The budget [json_loads] gives the scanner: every call it makes is on a
    text no longer than the argument, and two calls are never made on the
    same text by the same function. *)
Definition fuel_for (s : pystr) : nat := S (S (2 * length s)).

(** What [json.loads(s)] does. *)
Inductive loaded : Type :=
| Value (v : pyval)
| RaisesJSONDecodeError
| RaisesRecursionError
| RaisesValueError
| OutOfFuel.

(** [json.loads(s)] for a [str], in an interpreter that lets the scanner
    nest [depth] containers and whose limit on the digits of an [int] is
    [maxd]: a leading byte-order mark is refused, white space is skipped
    on both sides of the one value, and anything left over is
    [Extra data]. *)
Definition json_loads (depth : nat) (maxd : N) (s : pystr) : loaded :=
  match strip_prefix [65279] s with
  | Some _ => RaisesJSONDecodeError
  | None =>
      match scan_once maxd (fuel_for s) depth (skip_ws s) with
      | Parsed v rest =>
          match skip_ws rest with
          | [] => Value v
          | _ :: _ => RaisesJSONDecodeError
          end
      | DecodeError => RaisesJSONDecodeError
      | TooDeep => RaisesRecursionError
      | TooManyDigits => RaisesValueError
      | NoFuel => OutOfFuel
      end
  end.

(* ------------------------------------------------------------------ *)
(** ** Exceptions and output *)

Inductive py_exc : Type :=
| JSONDecodeError
| AttributeError
| RecursionError
| ValueError
| ModelOutOfFuel.

Definition py_exc_eqb (a b : py_exc) : bool :=
  match a, b with
  | JSONDecodeError, JSONDecodeError => true
  | AttributeError, AttributeError => true
  | RecursionError, RecursionError => true
  | ValueError, ValueError => true
  | ModelOutOfFuel, ModelOutOfFuel => true
  | _, _ => false
  end.

Inductive stream : Type := Stdout | Stderr.

(** The input and output operations of a run, in order. *)
Inductive io_event : Type :=
| Write (fd : stream) (data : pystr)
| ReadFile (path : pystr)
| ReadEnv (name : pystr).

Definition trace := list io_event.

(** A computation either raises or returns, and extends the trace. *)
Definition py (A : Type) : Type := trace -> (py_exc + A) * trace.

Definition ret {A} (a : A) : py A := fun t => (inr a, t).

Definition raise {A} (e : py_exc) : py A := fun t => (inl e, t).

Definition bind {A B} (c : py A) (k : A -> py B) : py B :=
  fun t =>
    match c t with
    | (inr a, t') => k a t'
    | (inl e, t') => (inl e, t')
    end.

(** [try: c  except e: handler] *)
Definition try_except {A} (c : py A) (e : py_exc) (handler : py A) : py A :=
  fun t =>
    match c t with
    | (inl e', t') => if py_exc_eqb e' e then handler t' else (inl e', t')
    | r => r
    end.

Notation "x <- c ;; k" := (bind c (fun x => k))
  (at level 61, c at next level, right associativity).

(** [print(s)] for a [str]: the text and a newline go to standard output. *)
Definition print (s : pystr) : py unit :=
  fun t => (inr tt, t ++ [Write Stdout (s ++ [10])]).

(** What [json.loads] did, as a computation.  [ValueError] is not
    [JSONDecodeError], although [JSONDecodeError] is a [ValueError]: a
    handler for the latter does not catch the former. *)
Definition loads (r : loaded) : py pyval :=
  match r with
  | Value v => ret v
  | RaisesJSONDecodeError => raise JSONDecodeError
  | RaisesRecursionError => raise RecursionError
  | RaisesValueError => raise ValueError
  | OutOfFuel => raise ModelOutOfFuel
  end.

(** [obj.get(key, default)]: only a [dict] has the method. *)
Definition call_get (obj : pyval) (key : pystr) (default : pyval) : py pyval :=
  match obj with
  | PDict d =>
      match dict_lookup d key with
      | Some v => ret v
      | None => ret default
      end
  | _ => raise AttributeError
  end.

(* ------------------------------------------------------------------ *)
(** ** [repr()], [str()] and the script *)

Definition squote : N := 39.

Definition contains (c : N) (s : pystr) : bool := existsb (N.eqb c) s.

(** What a process is started with. *)
Record world : Type := {
  sys_argv : list pystr;
  os_environ : list (pystr * pystr);
  files : list (pystr * pystr)
}.

(** The facts about the interpreter that the script depends on and that
    are taken as given: the text [repr] gives for the [float] that
    [float(lexeme)] builds; which code points above ASCII
    [str.isprintable] accepts (a table of the Unicode database); how many
    containers the scanner may enter beyond a first one before the
    recursion limit is met; and the limit on the digits of an [int] that
    the interpreter takes from its environment (zero for none). *)
Record interpreter : Type := {
  float_repr : pystr -> pystr;
  isprintable : N -> bool;
  spare_depth : nat;
  int_max_str_digits : list (pystr * pystr) -> N
}.

(** A process that has reached [main] can enter one container at least. *)
Definition json_depth (i : interpreter) : nat := S (spare_depth i).

(** What [json.loads(A)] does in the process [w]. *)
Definition decoded (i : interpreter) (w : world) (A : pystr) : loaded :=
  json_loads (json_depth i) (int_max_str_digits i (os_environ w)) A.

Section Script.

Variable interp : interpreter.

(** One character of [repr(s)], [quote] being the delimiter chosen. *)
Definition repr_char (quote c : N) : pystr :=
  if (c =? quote) || (c =? backslash) then [backslash; c]
  else if c =? 9 then [backslash; ord "t"]
  else if c =? 10 then [backslash; ord "n"]
  else if c =? 13 then [backslash; ord "r"]
  else if (c <? 32) || (c =? 127) then backslash :: ord "x" :: hexpad 2 c
  else if c <? 127 then [c]
  else if isprintable interp c then [c]
  else if c <=? 255 then backslash :: ord "x" :: hexpad 2 c
  else if c <=? 65535 then backslash :: ord "u" :: hexpad 4 c
  else backslash :: ord "U" :: hexpad 8 c.

(** [repr(s)] for a [str]: double quotes are the delimiter only when the
    text has an apostrophe and no double quote. *)
Definition str_repr (s : pystr) : pystr :=
  let quote :=
    if contains squote s && negb (contains dquote s) then dquote else squote in
  quote :: flat_map (repr_char quote) s ++ [quote].

Fixpoint py_repr (v : pyval) : pystr :=
  match v with
  | PNone => U "None"
  | PBool true => U "True"
  | PBool false => U "False"
  | PInt z => int_str z
  | PFloat lexeme => float_repr interp lexeme
  | PStr s => str_repr s
  | PList items => U "[" ++ join (U ", ") (map py_repr items) ++ U "]"
  | PDict items =>
      U "{" ++
      join (U ", ")
        (map (fun kv => str_repr (fst kv) ++ U ": " ++ py_repr (snd kv)) items) ++
      U "}"
  end.

(** [str(v)] *)
Definition py_str (v : pyval) : pystr :=
  match v with
  | PStr s => s
  | _ => py_repr v
  end.

(** What a replacement field [{v}] of an f-string contributes:
    [format(v, "")], which is [str(v)] for each of these types. *)
Definition format_field (v : pyval) : pystr := py_str v.

(** [main()] in the process [w]: it reads [sys.argv], and [json.loads]
    works within the limits of the interpreter. *)
Definition main (w : world) : py unit :=
  args <- try_except
            (if (1 <? length (sys_argv w))%nat
             then loads (decoded interp w (nth 1 (sys_argv w) []))
             else ret (PDict []))
            JSONDecodeError
            (ret (PDict [])) ;;
  text <- call_get args (U "text") (PStr []) ;;
  print (json_dumps [(U "content", U "echo: " ++ format_field text)]).

(** How a run ends: the operations the script performed, the exception
    that ended it if one did, and the exit status the interpreter then
    reports. *)
Record completed : Type := {
  io : trace;
  uncaught : option py_exc;
  exit_status : Z
}.

(** Running the file as a script calls [main()]; an exception nobody
    catches ends the process with status 1. *)
Definition run_script (w : world) : completed :=
  match main w [] with
  | (inr _, t) => {| io := t; uncaught := None; exit_status := 0 |}
  | (inl e, t) => {| io := t; uncaught := Some e; exit_status := 1 |}
  end.

End Script.

(** Everything written to standard output, in order. *)
Fixpoint stdout_of (t : trace) : pystr :=
  match t with
  | [] => []
  | Write Stdout data :: t' => data ++ stdout_of t'
  | _ :: t' => stdout_of t'
  end.

(** A process started with the given arguments and nothing else. *)
Definition argv_only (argv : list pystr) : world :=
  {| sys_argv := argv; os_environ := []; files := [] |}.

Definition echo_py : pystr := U "echo.py".

(* ------------------------------------------------------------------ *)
(** ** Vocabulary of the statements *)

(** The run that prints [line] and a newline, and nothing else, and ends
    normally. *)
Definition printed (line : pystr) : completed :=
  {| io := [Write Stdout (line ++ [10])]; uncaught := None; exit_status := 0%Z |}.

(** The run that [e] ends before anything is written. *)
Definition crashed (e : py_exc) : completed :=
  {| io := []; uncaught := Some e; exit_status := 1%Z |}.

(** The serialised record whose [content] is [echo: ] followed by [s]. *)
Definition echo_line (s : pystr) : pystr :=
  json_dumps [(U "content", U "echo: " ++ s)].

Definition is_dict (v : pyval) : bool :=
  match v with PDict _ => true | _ => false end.

(** The command-line argument at index 1, if there is one. *)
Definition first_arg (w : world) : option pystr := nth_error (sys_argv w) 1.

(** Stand-ins for the two uninterpreted tables, good for the runs in which
    [repr] meets no [float] and no printable character above ASCII: they
    are not what Python computes otherwise. *)
Definition no_float_repr (lexeme : pystr) : pystr := lexeme.
Definition ascii_isprintable (c : N) : bool := false.

(** [environ.get(name)] *)
Fixpoint env_lookup (env : list (pystr * pystr)) (name : pystr) : option pystr :=
  match env with
  | [] => None
  | (k, v) :: r => if pystr_eqb k name then Some v else env_lookup r name
  end.

(** The value of a text made of decimal digits. *)
Definition decimal_value (s : pystr) : option N :=
  match s with
  | [] => None
  | _ => if forallb is_digit s then Some (Z.to_N (digits_value s)) else None
  end.

(** The digit limit of a CPython that starts in the environment [env]:
    4300, unless [PYTHONINTMAXSTRDIGITS] gives another one (zero for none;
    an interpreter given anything else than zero or a number from 640 on
    does not start, and runs no script). *)
Definition env_int_max_str_digits (env : list (pystr * pystr)) : N :=
  match env_lookup env (U "PYTHONINTMAXSTRDIGITS") with
  | Some v =>
      match decimal_value v with
      | Some n => n
      | None => 4300
      end
  | None => 4300
  end.

(** CPython 3.11 with its defaults, for the runs the stand-ins are good
    for: of the recursion limit of 1000 the frames of the script and of
    the decoder leave the scanner some 993 levels, and the digit limit is
    that of the environment. *)
Definition cpython : interpreter :=
  {| float_repr := no_float_repr;
     isprintable := ascii_isprintable;
     spare_depth := 992;
     int_max_str_digits := env_int_max_str_digits |}.

(** A text of [n] copies of [c]. *)
Definition copies (n : nat) (c : N) : pystr := repeat c n.

(** An argument that gives [text] twice, the second time with a character
    of each kind the encoder and the decoder tell apart; the text it
    decodes to; and the line Python prints for it. *)
Definition escapes_argument : pystr :=
  J "{'text': 'x', 'text': 'a\'\\\/\n\r\t\b\f\u0001\u007f\u0041\u00e9\u20AC\ud83d\ude00\ud800 z'}".

Definition escapes_text : pystr :=
  [97; 34; 92; 47; 10; 13; 9; 8; 12; 1; 127; 65; 233; 8364; 128512; 55296; 32; 122].

Definition escapes_line : pystr :=
  J "{'content': 'echo: a\'\\/\n\r\t\b\f\u0001\u007fA\u00e9\u20ac\ud83d\ude00\ud800 z'}".

(** An argument whose [text] is an array of values of every kind but
    [float]; the value it decodes to; and the line Python prints for it. *)
Definition nested_argument : pystr :=
  Q "{'text': [1, -1205, 0, 'a\'b', 'it`s', 'both`\'', null, true, false, {'k': [true], 'q': {}}, [], 'tab\there', '']}".

Definition nested_value : pyval :=
  PList [PInt 1; PInt (-1205); PInt 0; PStr (J "a'b"); PStr (Q "it`s");
         PStr (Q "both`'"); PNone; PBool true; PBool false;
         PDict [(U "k", PList [PBool true]); (U "q", PDict [])]; PList [];
         PStr (U "tab" ++ [9] ++ U "here"); PStr []].

Definition nested_line : pystr :=
  Q "{'content': 'echo: [1, -1205, 0, `a\'b`, \'it`s\', `both\\`\'`, None, True, False, {`k`: [True], `q`: {}}, [], `tab\\there`, ``]'}".

(* ------------------------------------------------------------------ *)
(** ** Vocabulary of the proofs *)

(** Whether [t] begins with the two characters of a [\u] escape. *)
Definition starts_escape_u (t : pystr) : bool :=
  match t with
  | b :: u :: _ => (b =? backslash) && (u =? ord "u")
  | _ => false
  end.

(** The shapes of what the encoder writes for one character. *)
Inductive enc_shape : pystr -> Prop :=
| Enc_plain (c : N) :
    c <> dquote -> c <> backslash -> 32 <= c -> enc_shape [c]
| Enc_short (e ch : N) :
    e <> ord "u" -> BACKSLASH e = Some ch -> enc_shape [backslash; e]
| Enc_u (h1 h2 h3 h4 uni : N) :
    int16 h1 h2 h3 h4 = Some uni ->
    enc_shape [backslash; ord "u"; h1; h2; h3; h4]
| Enc_pair (h1 h2 h3 h4 k1 k2 k3 k4 hi lo : N) :
    int16 h1 h2 h3 h4 = Some hi -> is_high_surrogate hi = true ->
    int16 k1 k2 k3 k4 = Some lo -> is_low_surrogate lo = true ->
    enc_shape [backslash; ord "u"; h1; h2; h3; h4;
               backslash; ord "u"; k1; k2; k3; k4].

Definition printable_ascii (c : N) : Prop := 32 <= c <= 126.

(** What it means for a scanning function to have behaved on [s]: it did
    not run out of budget, and what it left is shorter than [s]. *)
Definition progressed (s : pystr) (r : scan pyval) : Prop :=
  match r with
  | Parsed _ rest => (length rest < length s)%nat
  | NoFuel => False
  | _ => True
  end.

Definition hi_world : world := argv_only [echo_py; J "{'text': 'hi'}"].


(** A character the encoder copies as it is: printable ASCII other than
    the double quote and the backslash. *)
Definition is_plain (c : N) : Prop :=
  32 <= c <= 126 /\ c <> dquote /\ c <> backslash.

(** A Unicode scalar value: a code point that is not a surrogate. *)
Definition is_scalar (c : N) : Prop :=
  c < 55296 \/ (57343 < c /\ c <= 1114111).

(** An operation that writes to standard output. *)
Definition writes_stdout (e : io_event) : Prop :=
  exists data, e = Write Stdout data.

(** The line printed when there is no text to echo. *)
Definition bare_line : pystr := J "{'content': 'echo: '}".

(** A decimal numeral whose first digit is not zero. *)
Definition starts_nonzero (d : Decimal.uint) : Prop :=
  match d with
  | Decimal.Nil | Decimal.D0 _ => False
  | _ => True
  end.

(** The argument whose [text] is the integer [z], written in decimal. *)
Definition int_argument (z : Z) : pystr :=
  J "{'text': " ++ int_str z ++ U "}".

(** A text made of white space only. *)
Definition blank (x : pystr) : Prop := Forall (fun c => is_ws c = true) x.

(** The result of a scan when [x] is added at the end of the text: what
    is left over grows by [x]. *)
Definition trail_opt {A : Type} (x : pystr) (o : option (A * pystr))
  : option (A * pystr) :=
  match o with
  | Some (a, r) => Some (a, r ++ x)
  | None => None
  end.

Definition trail (x : pystr) (r : scan pyval) : scan pyval :=
  match r with
  | Parsed v rest => Parsed v (rest ++ x)
  | other => other
  end.

(* ------------------------------------------------------------------ *)
(** ** The model on concrete inputs *)

Example scanstring_hi :
  scanstring (J "hi\n\u00e9\ud83d\uDE00\ud83d' tail") =
  Some (U "hi" ++ [10; 233; 128512; 55357], U " tail").
Proof. vm_compute. reflexivity. Qed.

Example encode_hi :
  encode_basestring_ascii (U "a" ++ [dquote; 10; 233; 128512; 127]) =
  J "'a\'\n\u00e9\ud83d\ude00\u007f'".
Proof. vm_compute. reflexivity. Qed.

Example json_dumps_hi :
  json_dumps [(U "content", U "echo: hi")] = J "{'content': 'echo: hi'}".
Proof. vm_compute. reflexivity. Qed.

Example int_str_ex :
  int_str (-1205) = U "-1205" /\ int_of_lexeme (U "-1205") = (-1205)%Z.
Proof. vm_compute. split; reflexivity. Qed.

Example loads_hi :
  forall d m,
    json_loads (S d) m (J "{'text': 'hi'}")
    = Value (PDict [(U "text", PStr (U "hi"))]).
Proof. intros. vm_compute. reflexivity. Qed.

Example loads_nested :
  json_loads 3 4300
    (J " { 'a' : [1, -2.5e3, true , null, {}], 'a': [], 'b':{'c':'A'} } ") =
  Value (PDict [(U "a", PList []); (U "b", PDict [(U "c", PStr (U "A"))])]).
Proof. vm_compute. reflexivity. Qed.

Example loads_list :
  json_loads 3 4300 (J "[1, -2.5e3, 10E+2, 0, -0, true, NaN, -Infinity, [[]]]") =
  Value (PList [PInt 1; PFloat (U "-2.5e3"); PFloat (U "10E+2"); PInt 0; PInt 0;
                PBool true; PFloat (U "nan"); PFloat (U "-inf"); PList [PList []]]).
Proof. vm_compute. reflexivity. Qed.

Example loads_bad :
  map (json_loads 1000 4300)
    [U "not-json"; U ""; U "{"; J "{'a' 1}"; J "{'a': 1,}"; U "[1,]"; U "01";
     U "1 2"; U "-"; U "1."; J "'abc"; J "{'a': 'b\x'}"; U "{'a': 1}"; U "nul";
     J "'\u12'"; 65279 :: U "1"; [dquote; 10; dquote]]
  = repeat RaisesJSONDecodeError 17.
Proof. vm_compute. reflexivity. Qed.

(** The limits of the interpreter: the third level of a document when two
    may be entered, a number of 4301 digits under the limit of 4300 (met
    before the error that follows it in the text), and the same number
    without a limit, with a sign, or as a [float]. *)
Example loads_limits :
  json_loads 2 4300 (U "[[[") = RaisesRecursionError /\
  json_loads 2 4300 (U "[[]") = RaisesJSONDecodeError /\
  json_loads 2 4300 (U "[" ++ copies 4301 50 ++ U "x") = RaisesValueError /\
  (exists z, json_loads 2 4300 (U "-" ++ copies 4300 50) = Value (PInt z)) /\
  (exists z, json_loads 2 0 (copies 4301 50) = Value (PInt z)) /\
  json_loads 2 4300 (copies 4301 50 ++ U ".0")
    = Value (PFloat (copies 4301 50 ++ U ".0")).
Proof.
  repeat split; try (vm_compute; reflexivity);
    eexists; vm_compute; reflexivity.
Qed.

Example run_hi :
  forall i,
    run_script i (argv_only [echo_py; J "{'text': 'hi'}"]) =
    {| io := [Write Stdout (J "{'content': 'echo: hi'}" ++ [10])];
       uncaught := None; exit_status := 0%Z |}.
Proof. intros. vm_compute. reflexivity. Qed.

Example run_list :
  stdout_of (io (run_script cpython
    (argv_only
       [echo_py;
        J "{'text': [1, 'a\'b', 'it" ++ U "'" ++
        J "s', null, {'k': [true]}, '\u0080\n']}"])))
  = J "{'content': 'echo: [1, " ++
    U "'a\" ++ [dquote] ++ U "b', \" ++ [dquote] ++ U "it's\" ++ [dquote] ++
    U ", None, {'k': [True]}, '\\x80\\n']" ++ J "'}" ++ [10].
Proof. vm_compute. reflexivity. Qed.

(* ------------------------------------------------------------------ *)
(** ** The four ways a run can go *)

Section Runs.

Variable interp : interpreter.

Local Abbreviation run := (run_script interp).
Local Abbreviation to_str := (py_str interp).

Lemma first_arg_none (w : world) :
  first_arg w = None -> (1 <? length (sys_argv w))%nat = false.
Proof.
  unfold first_arg.
  destruct (sys_argv w) as [|p [|a r]]; simpl; intros E;
    try discriminate E; reflexivity.
Qed.

Lemma first_arg_some (w : world) (A : pystr) :
  first_arg w = Some A ->
  (1 <? length (sys_argv w))%nat = true /\ nth 1 (sys_argv w) [] = A.
Proof.
  unfold first_arg.
  destruct (sys_argv w) as [|p [|a r]]; simpl; intros E; try discriminate E.
  injection E as ->. split; reflexivity.
Qed.

Lemma run_without_argument (w : world) :
  first_arg w = None -> run w = printed (echo_line []).
Proof.
  intros H. apply first_arg_none in H.
  unfold run_script, main, bind, try_except. rewrite H. reflexivity.
Qed.

Lemma run_undecodable (w : world) (A : pystr) :
  first_arg w = Some A -> decoded interp w A = RaisesJSONDecodeError ->
  run w = printed (echo_line []).
Proof.
  intros H L. apply first_arg_some in H as [H1 H2].
  unfold run_script, main, bind, try_except.
  rewrite H1, H2, L. reflexivity.
Qed.

Lemma run_object (w : world) (A : pystr) (d : list (pystr * pyval)) :
  first_arg w = Some A -> decoded interp w A = Value (PDict d) ->
  run w =
  printed (echo_line
    match dict_lookup d (U "text") with
    | Some v => to_str v
    | None => []
    end).
Proof.
  intros H L. apply first_arg_some in H as [H1 H2].
  unfold run_script, main, bind, try_except, call_get.
  rewrite H1, H2, L. cbn [loads ret raise].
  destruct (dict_lookup d (U "text")); reflexivity.
Qed.

Lemma run_not_object (w : world) (A : pystr) (v : pyval) :
  first_arg w = Some A -> decoded interp w A = Value v -> is_dict v = false ->
  run w = crashed AttributeError.
Proof.
  intros H L D. apply first_arg_some in H as [H1 H2].
  unfold run_script, main, bind, try_except, call_get.
  rewrite H1, H2, L. cbn [loads ret raise].
  destruct v; try discriminate D; reflexivity.
Qed.

Lemma run_too_deep (w : world) (A : pystr) :
  first_arg w = Some A -> decoded interp w A = RaisesRecursionError ->
  run w = crashed RecursionError.
Proof.
  intros H L. apply first_arg_some in H as [H1 H2].
  unfold run_script, main, bind, try_except.
  rewrite H1, H2, L. reflexivity.
Qed.

Lemma run_too_many_digits (w : world) (A : pystr) :
  first_arg w = Some A -> decoded interp w A = RaisesValueError ->
  run w = crashed ValueError.
Proof.
  intros H L. apply first_arg_some in H as [H1 H2].
  unfold run_script, main, bind, try_except.
  rewrite H1, H2, L. reflexivity.
Qed.

End Runs.

(* ------------------------------------------------------------------ *)
(** ** The encoder's escapes are read back by the decoder *)

Lemma hexval_hexdigit (d : N) : d < 16 -> hexval (hexdigit d) = Some d.
Proof.
  intros H. unfold hexdigit, hexval, is_digit.
  destruct (N.ltb_spec d 10) as [L|L].
  - replace ((48 <=? 48 + d) && (48 + d <=? 57)) with true.
    + f_equal. lia.
    + symmetry. apply andb_true_iff. split; apply N.leb_le; lia.
  - replace ((48 <=? 87 + d) && (87 + d <=? 57)) with false.
    + replace ((97 <=? 87 + d) && (87 + d <=? 102)) with true.
      * f_equal. lia.
      * symmetry. apply andb_true_iff. split; apply N.leb_le; lia.
    + symmetry. apply andb_false_iff. right. apply N.leb_gt. lia.
Qed.

(** Four digits written by the encoder are read back as the number. *)
Lemma int16_hexpad (n : N) :
  n < 65536 ->
  exists a b c d, hexpad 4 n = [a; b; c; d] /\ int16 a b c d = Some n.
Proof.
  intros H. cbn [hexpad app].
  do 4 eexists. split; [reflexivity|].
  unfold int16.
  assert (M : forall x, x mod 16 < 16) by (intros; apply N.mod_lt; lia).
  rewrite !hexval_hexdigit by apply M.
  f_equal.
  pose proof (N.div_mod n 16) as E0.
  pose proof (N.div_mod (n / 16) 16) as E1.
  pose proof (N.div_mod (n / 16 / 16) 16) as E2.
  pose proof (N.div_mod (n / 16 / 16 / 16) 16) as E3.
  pose proof (M n). pose proof (M (n / 16)). pose proof (M (n / 16 / 16)).
  pose proof (M (n / 16 / 16 / 16)).
  assert (Z3 : n / 16 / 16 / 16 / 16 = 0).
  { rewrite !N.Div0.div_div. apply N.div_small. exact H. }
  rewrite Z3 in E3.
  lia.
Qed.

(** A property of the numbers below 1024, decided by trying them all. *)
Lemma below_1024 (P : N -> bool) :
  forallb P (map N.of_nat (seq 0 1024)) = true ->
  forall y, y < 1024 -> P y = true.
Proof.
  intros F y H. rewrite forallb_forall in F. apply F.
  rewrite <- (N2Nat.id y). apply in_map. apply in_seq. lia.
Qed.

Lemma land_1023_small (x : N) : N.land x 1023 < 1024.
Proof.
  change 1023 with (N.ones 10). rewrite N.land_ones.
  apply N.mod_lt. discriminate.
Qed.

(** The two halves the encoder writes for a code point beyond the BMP. *)
Lemma high_half (x : N) :
  let s1 := N.lor 55296 (N.land x 1023) in
  is_high_surrogate s1 = true /\ s1 < 65536.
Proof.
  pose proof (below_1024
    (fun y => is_high_surrogate (N.lor 55296 y) && (N.lor 55296 y <? 65536))) as B.
  specialize (B ltac:(vm_compute; reflexivity) _ (land_1023_small x)).
  apply andb_true_iff in B as [B1 B2]. apply N.ltb_lt in B2. split; assumption.
Qed.

Lemma low_half (x : N) :
  let s2 := N.lor 56320 (N.land x 1023) in
  is_low_surrogate s2 = true /\ s2 < 65536.
Proof.
  pose proof (below_1024
    (fun y => is_low_surrogate (N.lor 56320 y) && (N.lor 56320 y <? 65536))) as B.
  specialize (B ltac:(vm_compute; reflexivity) _ (land_1023_small x)).
  apply andb_true_iff in B as [B1 B2]. apply N.ltb_lt in B2. split; assumption.
Qed.

Lemma high_not_low (u : N) : is_high_surrogate u = true -> is_low_surrogate u = false.
Proof.
  unfold is_high_surrogate, is_low_surrogate. intros H.
  apply andb_true_iff in H as [_ H]. apply N.leb_le in H.
  apply andb_false_iff. left. apply N.leb_gt. lia.
Qed.

(** *** One step of [scanstring] on each shape of input *)

Lemma scanstring_plain (c : N) (t : pystr) :
  c <> dquote -> c <> backslash -> 32 <= c ->
  scanstring (c :: t) = push c (scanstring t).
Proof.
  intros Q B L. cbn [scanstring].
  apply N.eqb_neq in Q. apply N.eqb_neq in B. rewrite Q, B.
  replace (c <? 32) with false by (symmetry; apply N.ltb_ge; exact L).
  reflexivity.
Qed.

Lemma scanstring_short (e ch : N) (t : pystr) :
  e <> ord "u" -> BACKSLASH e = Some ch ->
  scanstring (backslash :: e :: t) = push ch (scanstring t).
Proof.
  intros NU E. cbn [scanstring].
  change (backslash =? dquote) with false.
  change (backslash =? backslash) with true. cbv iota.
  apply N.eqb_neq in NU. rewrite NU, E. reflexivity.
Qed.

Lemma scanstring_u_alone (h1 h2 h3 h4 uni : N) (t : pystr) :
  int16 h1 h2 h3 h4 = Some uni ->
  is_high_surrogate uni && starts_escape_u t = false ->
  scanstring (backslash :: ord "u" :: h1 :: h2 :: h3 :: h4 :: t)
  = push uni (scanstring t).
Proof.
  intros E C. cbn [scanstring].
  change (backslash =? dquote) with false.
  change (backslash =? backslash) with true.
  change (ord "u" =? ord "u") with true. cbv iota.
  rewrite E.
  destruct t as [|b [|u t3]]; try reflexivity.
  cbn [starts_escape_u] in C. rewrite <- andb_assoc, C. reflexivity.
Qed.

Lemma scanstring_u_pair (h1 h2 h3 h4 k1 k2 k3 k4 hi lo : N) (t : pystr) :
  int16 h1 h2 h3 h4 = Some hi -> is_high_surrogate hi = true ->
  int16 k1 k2 k3 k4 = Some lo ->
  scanstring (backslash :: ord "u" :: h1 :: h2 :: h3 :: h4 ::
              backslash :: ord "u" :: k1 :: k2 :: k3 :: k4 :: t)
  = if is_low_surrogate lo
    then push (join_surrogates hi lo) (scanstring t)
    else push hi (scanstring (backslash :: ord "u" :: k1 :: k2 :: k3 :: k4 :: t)).
Proof.
  intros E H E2.
  set (tail := backslash :: ord "u" :: k1 :: k2 :: k3 :: k4 :: t).
  cbn [scanstring].
  change (backslash =? dquote) with false.
  change (backslash =? backslash) with true.
  change (ord "u" =? ord "u") with true. cbv iota.
  rewrite E. subst tail. cbv iota. rewrite H.
  change (backslash =? backslash) with true.
  change (ord "u" =? ord "u") with true.
  cbn [andb]. rewrite E2. reflexivity.
Qed.

Lemma encode_char_shape (c : N) : enc_shape (encode_char c).
Proof.
  unfold encode_char.
  destruct (N.eqb_spec c dquote) as [->|Q].
  { apply Enc_short with (ch := dquote); [discriminate | reflexivity]. }
  destruct (N.eqb_spec c backslash) as [->|B].
  { apply Enc_short with (ch := backslash); [discriminate | reflexivity]. }
  destruct ((32 <=? c) && (c <=? 126)) eqn:P.
  { apply andb_true_iff in P as [P _]. apply N.leb_le in P.
    apply Enc_plain; assumption. }
  destruct (c =? 8). { apply Enc_short with (ch := 8); [discriminate | reflexivity]. }
  destruct (c =? 12). { apply Enc_short with (ch := 12); [discriminate | reflexivity]. }
  destruct (c =? 10). { apply Enc_short with (ch := 10); [discriminate | reflexivity]. }
  destruct (c =? 13). { apply Enc_short with (ch := 13); [discriminate | reflexivity]. }
  destruct (c =? 9). { apply Enc_short with (ch := 9); [discriminate | reflexivity]. }
  destruct (N.ltb_spec c 65536) as [L|L].
  { destruct (int16_hexpad c L) as (a & b & d & e & -> & E).
    apply Enc_u with (uni := c). exact E. }
  cbv zeta.
  destruct (high_half (N.shiftr (c - 65536) 10)) as [H1 L1].
  destruct (low_half (c - 65536)) as [H2 L2].
  destruct (int16_hexpad _ L1) as (a1 & b1 & d1 & e1 & -> & E1).
  destruct (int16_hexpad _ L2) as (a2 & b2 & d2 & e2 & -> & E2).
  cbn [app]. eapply Enc_pair; eassumption.
Qed.

Lemma push_some (c : N) (t rest : pystr) :
  (exists s', scanstring t = Some (s', rest)) ->
  exists s', push c (scanstring t) = Some (s', rest).
Proof. intros [s' ->]. eexists. reflexivity. Qed.

(** A string literal written by the encoder is read to its closing quote. *)
Lemma scanstring_encoded (s rest : pystr) :
  exists s', scanstring (flat_map encode_char s ++ dquote :: rest) = Some (s', rest).
Proof.
  remember (length s) as n eqn:Hn.
  assert (Hle : (length s <= n)%nat) by lia. clear Hn.
  revert s Hle. induction n as [|n IH]; intros s Hle.
  { destruct s; [|simpl in Hle; lia]. eexists. reflexivity. }
  destruct s as [|c s1]; [eexists; reflexivity|].
  simpl in Hle.
  assert (IH1 := IH s1 ltac:(lia)).
  cbn [flat_map]. rewrite <- app_assoc.
  set (T1 := flat_map encode_char s1 ++ dquote :: rest) in *.
  destruct (encode_char_shape c)
    as [c' Q B L | e ch NU E | h1 h2 h3 h4 uni E
        | h1 h2 h3 h4 k1 k2 k3 k4 hi lo E H E2 H2]; cbn [app].
  - rewrite scanstring_plain by assumption. apply push_some, IH1.
  - rewrite (scanstring_short e ch) by assumption. apply push_some, IH1.
  - destruct (is_high_surrogate uni) eqn:H.
    2:{ rewrite (scanstring_u_alone _ _ _ _ uni) by (try rewrite H; auto).
        apply push_some, IH1. }
    subst T1. destruct s1 as [|c2 s2].
    { rewrite (scanstring_u_alone _ _ _ _ uni);
        [apply push_some, IH1 | exact E | rewrite H; destruct rest; reflexivity]. }
    simpl in Hle. assert (IH2 := IH s2 ltac:(lia)).
    revert IH1. cbn [flat_map]. rewrite <- app_assoc.
    set (T2 := flat_map encode_char s2 ++ dquote :: rest) in *.
    destruct (encode_char_shape c2)
      as [c' Q B L | e ch NU E' | g1 g2 g3 g4 uni2 E'
          | g1 g2 g3 g4 k1 k2 k3 k4 hi lo E' H' E2 H2]; cbn [app]; intros IH1.
    + rewrite (scanstring_u_alone _ _ _ _ uni);
        [apply push_some, IH1 | exact E | ].
      rewrite H. cbn [starts_escape_u andb].
      apply N.eqb_neq in B. rewrite B. destruct T2; reflexivity.
    + rewrite (scanstring_u_alone _ _ _ _ uni);
        [apply push_some, IH1 | exact E | ].
      rewrite H. cbn [starts_escape_u andb].
      apply N.eqb_neq in NU. rewrite NU. reflexivity.
    + rewrite (scanstring_u_pair _ _ _ _ _ _ _ _ uni uni2) by assumption.
      destruct (is_low_surrogate uni2); apply push_some; assumption.
    + rewrite (scanstring_u_pair _ _ _ _ _ _ _ _ uni hi) by assumption.
      rewrite (high_not_low hi H'). apply push_some, IH1.
  - rewrite (scanstring_u_pair _ _ _ _ _ _ _ _ hi lo) by assumption.
    rewrite H2. apply push_some, IH1.
Qed.

(** *** What [json.dumps] writes is printable ASCII *)

Lemma hexdigit_printable (d : N) : d < 16 -> printable_ascii (hexdigit d).
Proof.
  unfold hexdigit, printable_ascii. intros H.
  destruct (N.ltb_spec d 10); lia.
Qed.

Lemma hexpad_printable (w : nat) (n : N) : Forall printable_ascii (hexpad w n).
Proof.
  revert n. induction w as [|w IH]; intros n; cbn [hexpad].
  - constructor.
  - apply Forall_app. split; [apply IH|].
    constructor; [|constructor].
    apply hexdigit_printable, N.mod_lt. discriminate.
Qed.

Lemma encode_char_printable (c : N) : Forall printable_ascii (encode_char c).
Proof.
  assert (K : forall x y, Forall printable_ascii [backslash; x] ->
                          Forall printable_ascii (backslash :: x :: hexpad 4 y)).
  { intros x y F. inversion F as [|? ? F1 F2]; subst.
    inversion F2; subst.
    constructor; [assumption|]. constructor; [assumption|].
    apply hexpad_printable. }
  assert (S2 : forall x, printable_ascii x -> Forall printable_ascii [backslash; x]).
  { intros x Hx. constructor; [unfold printable_ascii, backslash; lia|].
    constructor; [assumption | constructor]. }
  assert (Pu : printable_ascii (ord "u")) by (vm_compute; split; discriminate).
  unfold encode_char.
  destruct (c =? dquote); [apply S2; vm_compute; split; discriminate|].
  destruct (c =? backslash); [apply S2; vm_compute; split; discriminate|].
  destruct ((32 <=? c) && (c <=? 126)) eqn:P.
  { apply andb_true_iff in P as [P1 P2]. apply N.leb_le in P1, P2.
    constructor; [split; assumption | constructor]. }
  destruct (c =? 8); [apply S2; vm_compute; split; discriminate|].
  destruct (c =? 12); [apply S2; vm_compute; split; discriminate|].
  destruct (c =? 10); [apply S2; vm_compute; split; discriminate|].
  destruct (c =? 13); [apply S2; vm_compute; split; discriminate|].
  destruct (c =? 9); [apply S2; vm_compute; split; discriminate|].
  destruct (c <? 65536); [apply K, S2, Pu|].
  cbv zeta. apply Forall_app. split; apply K, S2, Pu.
Qed.

Lemma encoded_printable (s : pystr) : Forall printable_ascii (flat_map encode_char s).
Proof.
  induction s as [|c s IH]; cbn [flat_map].
  - constructor.
  - apply Forall_app. split; [apply encode_char_printable | exact IH].
Qed.

(** *** The line the script prints, spelled out *)

Lemma echo_line_text (s : pystr) :
  echo_line s = J "{'content': 'echo: " ++ flat_map encode_char s ++ J "'}".
Proof.
  unfold echo_line, json_dumps, encode_basestring_ascii.
  cbn [map join fst snd]. rewrite flat_map_app.
  change (flat_map encode_char (U "content")) with (U "content").
  change (flat_map encode_char (U "echo: ")) with (U "echo: ").
  change (J "{'content': 'echo: ") with
    (U "{" ++ (dquote :: U "content" ++ [dquote]) ++ U ": " ++ dquote :: U "echo: ").
  change (J "'}") with ([dquote] ++ U "}").
  repeat (rewrite <- ?app_assoc, <- ?app_comm_cons). reflexivity.
Qed.

Lemma echo_line_printable (s : pystr) : Forall printable_ascii (echo_line s).
Proof.
  rewrite echo_line_text. apply Forall_app. split.
  - vm_compute. repeat constructor; discriminate.
  - apply Forall_app. split; [apply encoded_printable|].
    vm_compute. repeat constructor; discriminate.
Qed.

Lemma echo_line_one_line (s : pystr) : ~ In 10 (echo_line s).
Proof.
  intros H. pose proof (echo_line_printable s) as F.
  rewrite Forall_forall in F. specialize (F _ H). unfold printable_ascii in F. lia.
Qed.

(** *** The printed line read back by [json.loads] *)

Lemma scan_content_object (m : N) (f d : nat) (body str : pystr) :
  scanstring (body ++ J "'}") = Some (str, U "}") ->
  scan_once m (S (S (S f))) (S d) (J "{'content': '" ++ body ++ J "'}")
  = Parsed (PDict [(U "content", PStr str)]) [].
Proof.
  intros E.
  change (J "{'content': '" ++ body ++ J "'}") with
    (ord "{" :: dquote :: U "content" ++ dquote :: ord ":" :: 32 :: dquote
       :: (body ++ J "'}")).
  remember (body ++ J "'}") as tail eqn:Ht. clear Ht.
  cbn. rewrite E. reflexivity.
Qed.

(** The printed line is decoded to the record it was made from, whenever
    the decoder reads the content back as [str]; the limits of the
    interpreter play no part. *)
Lemma loads_echo_line_as (s str : pystr) :
  scanstring (flat_map encode_char (U "echo: " ++ s) ++ J "'}") = Some (str, U "}") ->
  forall d m,
    json_loads (S d) m (echo_line s) = Value (PDict [(U "content", PStr str)]).
Proof.
  intros E d m. rewrite echo_line_text.
  rewrite flat_map_app in E.
  change (flat_map encode_char (U "echo: ")) with (U "echo: ") in E.
  rewrite <- app_assoc in E.
  change (J "{'content': 'echo: " ++ flat_map encode_char s ++ J "'}") with
    (J "{'content': '" ++ (U "echo: " ++ flat_map encode_char s) ++ J "'}").
  set (body := U "echo: " ++ flat_map encode_char s) in *.
  unfold json_loads.
  change (strip_prefix [65279] (J "{'content': '" ++ body ++ J "'}"))
    with (@None pystr).
  assert (F : exists f, fuel_for (J "{'content': '" ++ body ++ J "'}") = S (S (S f))).
  { unfold fuel_for. cbn [J U map list_ascii_of_string app length].
    eexists. rewrite Nat.mul_succ_r, Nat.add_succ_r. reflexivity. }
  destruct F as [f F]. rewrite F.
  change (skip_ws (J "{'content': '" ++ body ++ J "'}"))
    with (J "{'content': '" ++ body ++ J "'}").
  rewrite (scan_content_object m f d body str E). reflexivity.
Qed.

Lemma loads_echo_line (s : pystr) :
  exists str, forall d m,
    json_loads (S d) m (echo_line s) = Value (PDict [(U "content", PStr str)]).
Proof.
  destruct (scanstring_encoded (U "echo: " ++ s) (U "}")) as [str E].
  exists str. apply loads_echo_line_as. exact E.
Qed.

(* ------------------------------------------------------------------ *)
(** ** The scanner always has budget enough *)

Lemma skip_ws_length (s : pystr) : (length (skip_ws s) <= length s)%nat.
Proof.
  induction s as [|c t IH]; cbn [skip_ws]; [lia|].
  destruct (is_ws c); simpl; lia.
Qed.

Lemma skip_ws_cons (s t : pystr) (c : N) :
  skip_ws s = c :: t -> (length t < length s)%nat.
Proof.
  intros E. pose proof (skip_ws_length s) as L. rewrite E in L. simpl in L. lia.
Qed.

Lemma push_inv (c : N) (o : option (pystr * pystr)) (x r : pystr) :
  push c o = Some (x, r) -> exists x', o = Some (x', r).
Proof.
  destruct o as [[x' r']|]; cbn [push]; intros E; [|discriminate E].
  injection E as _ ->. eexists. reflexivity.
Qed.

(** A string literal takes at least its closing quote. *)
Lemma scanstring_shorter (s x r : pystr) :
  scanstring s = Some (x, r) -> (length r < length s)%nat.
Proof.
  enough (G : forall n s x r, (length s <= n)%nat ->
                scanstring s = Some (x, r) -> (length r < length s)%nat)
    by (apply (G (length s)); lia).
  clear s x r. induction n as [|n IH]; intros s x r Hle E.
  { destruct s; [discriminate E | simpl in Hle; lia]. }
  destruct s as [|c t]; [discriminate E|].
  cbn [scanstring] in E.
  repeat match type of E with
         | context [match ?b with _ => _ end] => destruct b eqn:?
         end;
    try discriminate E;
    try (injection E as _ <-; simpl; lia);
    apply push_inv in E as [x' E];
    apply IH in E; simpl in *; lia.
Qed.

Lemma strip_prefix_length (p s r : pystr) :
  strip_prefix p s = Some r -> length s = (length p + length r)%nat.
Proof.
  revert s. induction p as [|x p IH]; intros s E; cbn [strip_prefix] in E.
  - injection E as ->. reflexivity.
  - destruct s as [|y s]; [discriminate E|].
    destruct (x =? y); [|discriminate E].
    apply IH in E. simpl. lia.
Qed.

Lemma span_digits_length (s ds r : pystr) :
  span_digits s = (ds, r) -> length s = (length ds + length r)%nat.
Proof.
  revert ds r. induction s as [|c t IH]; intros ds r E; cbn [span_digits] in E.
  - injection E as <- <-. reflexivity.
  - destruct (is_digit c).
    + destruct (span_digits t) as [ds' r'] eqn:S.
      injection E as <- <-. specialize (IH _ _ eq_refl). simpl. lia.
    + injection E as <- <-. reflexivity.
Qed.

Lemma match_integer_shorter (s i r : pystr) :
  match_integer s = Some (i, r) -> (length r < length s)%nat.
Proof.
  unfold match_integer. intros E.
  destruct s as [|c t]; [discriminate E|].
  destruct (c =? ord "-").
  - destruct t as [|d t']; [discriminate E|].
    destruct (d =? 48); [injection E as _ <-; simpl; lia|].
    destruct (is_digit d); [|discriminate E].
    destruct (span_digits t') as [ds r'] eqn:S. injection E as _ <-.
    apply span_digits_length in S. simpl. lia.
  - destruct (c =? 48); [injection E as _ <-; simpl; lia|].
    destruct (is_digit c); [|discriminate E].
    destruct (span_digits t) as [ds r'] eqn:S. injection E as _ <-.
    apply span_digits_length in S. simpl. lia.
Qed.

Lemma match_frac_length (s : pystr) : (length (snd (match_frac s)) <= length s)%nat.
Proof.
  unfold match_frac. destruct s as [|c t]; [simpl; lia|].
  destruct (c =? ord "."); [|simpl; lia].
  destruct (span_digits t) as [[|d ds] r] eqn:S; [simpl; lia|].
  apply span_digits_length in S. simpl in *. lia.
Qed.

Lemma match_exp_length (s : pystr) : (length (snd (match_exp s)) <= length s)%nat.
Proof.
  unfold match_exp. destruct s as [|c t]; [simpl; lia|].
  destruct ((c =? ord "e") || (c =? ord "E")); [|simpl; lia].
  destruct t as [|g t'].
  - cbn. lia.
  - destruct ((g =? ord "-") || (g =? ord "+")).
    + destruct (span_digits t') as [[|d ds] r] eqn:S; [simpl; lia|].
      apply span_digits_length in S. simpl in *. lia.
    + destruct (span_digits (g :: t')) as [[|d ds] r] eqn:S; [simpl; lia|].
      apply span_digits_length in S. simpl in *. lia.
Qed.

Lemma match_number_shorter (s integer frac exp r : pystr) :
  match_number s = Some (integer, frac, exp, r) -> (length r < length s)%nat.
Proof.
  unfold match_number. intros E.
  destruct (match_integer s) as [[i r0]|] eqn:I; [|discriminate E].
  apply match_integer_shorter in I.
  pose proof (match_frac_length r0) as F.
  destruct (match_frac r0) as [fr r1].
  pose proof (match_exp_length r1) as X.
  destruct (match_exp r1) as [ex r2].
  cbn [snd] in F, X.
  injection E as _ _ _ <-. lia.
Qed.

Lemma progressed_longer (s s' : pystr) (r : scan pyval) :
  (length s <= length s')%nat -> progressed s r -> progressed s' r.
Proof. destruct r; cbn [progressed]; intros; try lia; assumption. Qed.

Lemma scan_scalar_progressed (m : N) (s : pystr) : progressed s (scan_scalar m s).
Proof.
  unfold scan_scalar.
  repeat match goal with
         | |- context [strip_prefix ?p s] =>
             let E := fresh "E" in
             destruct (strip_prefix p s) eqn:E;
             [apply strip_prefix_length in E; cbn [progressed];
              change (length p) with (length (U "x") + pred (length p))%nat in E;
              simpl in E; lia|]
         | |- context [match_number s] =>
             let E := fresh "E" in
             destruct (match_number s) as [[[[? ?] ?] ?]|] eqn:E;
             [apply match_number_shorter in E;
              destruct (number_value _ _ _ _); [exact E | exact I]|]
         end.
  exact I.
Qed.

(** With a budget above twice the length of the text (and one more for
    the array loop, which hands its whole text to [scan_once]), the three
    scanning functions never run out, and each consumes something. *)
Lemma scanner_progress (m : N) (fuel : nat) :
  (forall d s, (2 * length s < fuel)%nat -> progressed s (scan_once m fuel d s)) /\
  (forall d s pairs, (2 * length s < fuel)%nat ->
                     progressed s (object_loop m fuel d s pairs)) /\
  (forall d s values, (2 * length s + 1 < fuel)%nat ->
                      progressed s (array_loop m fuel d s values)).
Proof.
  induction fuel as [|f (IHs & IHo & IHa)].
  { repeat split; intros; lia. }
  repeat split.
  - (* scan_once *)
    intros d s B. cbn [scan_once].
    destruct s as [|c t]; [exact I|].
    destruct (c =? dquote).
    { destruct (scanstring t) as [[str r]|] eqn:E; [|exact I].
      apply scanstring_shorter in E. simpl. lia. }
    destruct (c =? ord "{").
    { destruct d as [|d]; [exact I|].
      destruct (skip_ws t) as [|c1 t1] eqn:W; [exact I|].
      apply skip_ws_cons in W.
      destruct (c1 =? ord "}"); [simpl; lia|].
      destruct (c1 =? dquote); [|exact I].
      apply (progressed_longer t1); [simpl; lia|].
      apply IHo. simpl in B. lia. }
    destruct (c =? ord "[").
    { destruct d as [|d]; [exact I|].
      pose proof (skip_ws_length t) as W.
      destruct (skip_ws t) as [|c1 t1].
      - apply (progressed_longer []); [simpl; lia|].
        apply IHa. simpl in *. lia.
      - destruct (c1 =? ord "]"); [simpl in *; lia|].
        apply (progressed_longer (c1 :: t1)); [simpl in *; lia|].
        apply IHa. simpl in *. lia. }
    apply scan_scalar_progressed.
  - (* object_loop *)
    intros d s pairs B. cbn [object_loop].
    destruct (scanstring s) as [[key s1]|] eqn:K; [|exact I].
    apply scanstring_shorter in K.
    destruct (skip_ws s1) as [|c s2] eqn:W1; [exact I|].
    apply skip_ws_cons in W1.
    destruct (c =? ord ":"); [|exact I].
    pose proof (skip_ws_length s2) as W2.
    pose proof (IHs d (skip_ws s2) ltac:(lia)) as P.
    destruct (scan_once m f d (skip_ws s2)) as [value s3| | | |];
      cbn [progressed] in P; try exact I; try exact P.
    destruct (skip_ws s3) as [|c1 s4] eqn:W3; [exact I|].
    apply skip_ws_cons in W3.
    destruct (c1 =? ord "}"); [simpl; lia|].
    destruct (c1 =? ord ","); [|exact I].
    destruct (skip_ws s4) as [|c2 s5] eqn:W4; [exact I|].
    apply skip_ws_cons in W4.
    destruct (c2 =? dquote); [|exact I].
    apply (progressed_longer s5); [lia|].
    apply IHo. lia.
  - (* array_loop *)
    intros d s values B. cbn [array_loop].
    pose proof (IHs d s ltac:(lia)) as P.
    destruct (scan_once m f d s) as [value s1| | | |];
      cbn [progressed] in P; try exact I; try exact P.
    destruct (skip_ws s1) as [|c s2] eqn:W1; [exact I|].
    apply skip_ws_cons in W1.
    destruct (c =? ord "]"); [simpl; lia|].
    destruct (c =? ord ","); [|exact I].
    pose proof (skip_ws_length s2) as W2.
    apply (progressed_longer (skip_ws s2)); [lia|].
    apply IHa. lia.
Qed.

Lemma scan_once_enough (d : nat) (m : N) (s : pystr) :
  scan_once m (fuel_for s) d (skip_ws s) <> NoFuel.
Proof.
  pose proof (proj1 (scanner_progress m (fuel_for s)) d (skip_ws s)) as P.
  pose proof (skip_ws_length s). unfold fuel_for in P at 1.
  specialize (P ltac:(lia)). intros E. rewrite E in P. exact P.
Qed.

(** [json.loads] returns a value or raises one of its three errors: the
    budget of the model is never what stops it. *)
Lemma json_loads_total (d : nat) (m : N) (s : pystr) : json_loads d m s <> OutOfFuel.
Proof.
  unfold json_loads.
  pose proof (scan_once_enough d m s) as P.
  destruct (strip_prefix [65279] s); [discriminate|].
  destruct (scan_once m (fuel_for s) d (skip_ws s)) as [v rest| | | |];
    try discriminate; [|contradiction].
  destruct (skip_ws rest); discriminate.
Qed.

(* ------------------------------------------------------------------ *)
(** ** Lengths, plain text and blank arguments *)

Lemma encode_char_length (c : N) :
  (1 <= length (encode_char c) <= 12)%nat.
Proof.
  unfold encode_char.
  repeat match goal with
         | |- context [if ?b then _ else _] => destruct b
         end; cbn; lia.
Qed.

Lemma encoded_length (s : pystr) :
  (length s <= length (flat_map encode_char s) <= 12 * length s)%nat.
Proof.
  induction s as [|c s IH]; cbn [flat_map length]; [lia|].
  rewrite length_app. pose proof (encode_char_length c). lia.
Qed.

Lemma encode_char_plain (c : N) : is_plain c -> encode_char c = [c].
Proof.
  intros ((L & H) & Q & B). unfold encode_char.
  apply N.eqb_neq in Q. apply N.eqb_neq in B. rewrite Q, B.
  apply N.leb_le in L. apply N.leb_le in H. rewrite L, H. reflexivity.
Qed.

Lemma encoded_plain (s : pystr) : Forall is_plain s -> flat_map encode_char s = s.
Proof.
  induction 1 as [|c s P _ IH]; cbn [flat_map]; [reflexivity|].
  rewrite (encode_char_plain c P), IH. reflexivity.
Qed.

Lemma loads_bom (d : nat) (m : N) (rest : pystr) :
  json_loads d m (65279 :: rest) = RaisesJSONDecodeError.
Proof. reflexivity. Qed.

Lemma skip_ws_blank (s : pystr) :
  Forall (fun c => is_ws c = true) s -> skip_ws s = [].
Proof.
  induction 1 as [|c s W _ IH]; cbn [skip_ws]; [reflexivity|].
  rewrite W. exact IH.
Qed.

Lemma loads_blank (d : nat) (m : N) (s : pystr) :
  Forall (fun c => is_ws c = true) s -> json_loads d m s = RaisesJSONDecodeError.
Proof.
  intros B. unfold json_loads. rewrite (skip_ws_blank s B).
  destruct (strip_prefix [65279] s); reflexivity.
Qed.

(* ------------------------------------------------------------------ *)
(** ** Text without surrogates survives the encoder and the decoder *)

Lemma land_shifted_low (a b : N) : b < 1024 -> N.land (a * 1024) b = 0.
Proof.
  intros H.
  replace b with (N.land (N.ones 10) b).
  - rewrite N.land_assoc, N.land_ones. change (2 ^ 10) with 1024.
    rewrite N.Div0.mod_mul. apply N.land_0_l.
  - rewrite N.land_comm, N.land_ones. apply N.mod_small. exact H.
Qed.

(** Below the tenth bit of a number shifted left by ten there is room:
    [or] adds. *)
Lemma lor_shifted_low (a b : N) : b < 1024 -> N.lor (N.shiftl a 10) b = a * 1024 + b.
Proof.
  intros H. rewrite N.shiftl_mul_pow2. change (2 ^ 10) with 1024.
  pose proof (land_shifted_low a b H) as L0.
  apply N2Z.inj. rewrite N2Z.inj_lor, N2Z.inj_add.
  assert (LZ : Z.land (Z.of_N (a * 1024)) (Z.of_N b) = 0%Z).
  { rewrite <- N2Z.inj_land, L0. reflexivity. }
  rewrite <- (Z.lxor_lor _ _ LZ). symmetry. apply Z.add_nocarry_lxor. exact LZ.
Qed.

(** The surrogate pair the encoder writes for a code point beyond the BMP
    is joined by the decoder to that code point. *)
Lemma join_halves (c : N) :
  65536 <= c <= 1114111 ->
  let n := c - 65536 in
  join_surrogates (N.lor 55296 (N.land (N.shiftr n 10) 1023))
                  (N.lor 56320 (N.land n 1023)) = c.
Proof.
  intros R n.
  assert (Hn : n < 1048576) by (unfold n; lia).
  assert (Y1 : N.land (N.shiftr n 10) 1023 = n / 1024).
  { change 1023 with (N.ones 10). rewrite N.land_ones, N.shiftr_div_pow2.
    change (2 ^ 10) with 1024. apply N.mod_small.
    apply N.Div0.div_lt_upper_bound. lia. }
  assert (Y2 : N.land n 1023 = n mod 1024).
  { change 1023 with (N.ones 10). rewrite N.land_ones. reflexivity. }
  rewrite Y1, Y2.
  assert (B1 : n / 1024 < 1024) by (apply N.Div0.div_lt_upper_bound; lia).
  assert (B2 : n mod 1024 < 1024) by (apply N.mod_lt; discriminate).
  change 55296 with (N.shiftl 54 10). change 56320 with (N.shiftl 55 10).
  rewrite (lor_shifted_low 54 _ B1), (lor_shifted_low 55 _ B2).
  unfold join_surrogates.
  replace (54 * 1024 + n / 1024 - 55296) with (n / 1024) by lia.
  replace (55 * 1024 + n mod 1024 - 56320) with (n mod 1024) by lia.
  rewrite (lor_shifted_low _ _ B2).
  pose proof (N.div_mod n 1024 ltac:(discriminate)) as DM.
  unfold n in *. lia.
Qed.

(** One character: what the encoder writes for a scalar value, the decoder
    reads as that value. *)
Lemma scanstring_encode_char (c : N) (t : pystr) :
  is_scalar c ->
  scanstring (encode_char c ++ t) = push c (scanstring t).
Proof.
  intros SC. unfold encode_char.
  destruct (N.eqb_spec c dquote) as [->|Q].
  { apply scanstring_short; [discriminate | reflexivity]. }
  destruct (N.eqb_spec c backslash) as [->|B].
  { apply scanstring_short; [discriminate | reflexivity]. }
  destruct ((32 <=? c) && (c <=? 126)) eqn:P.
  { apply andb_true_iff in P as [P _]. apply N.leb_le in P.
    apply scanstring_plain; assumption. }
  destruct (N.eqb_spec c 8) as [->|_].
  { apply scanstring_short; [discriminate | reflexivity]. }
  destruct (N.eqb_spec c 12) as [->|_].
  { apply scanstring_short; [discriminate | reflexivity]. }
  destruct (N.eqb_spec c 10) as [->|_].
  { apply scanstring_short; [discriminate | reflexivity]. }
  destruct (N.eqb_spec c 13) as [->|_].
  { apply scanstring_short; [discriminate | reflexivity]. }
  destruct (N.eqb_spec c 9) as [->|_].
  { apply scanstring_short; [discriminate | reflexivity]. }
  destruct (N.ltb_spec c 65536) as [L|L].
  { destruct (int16_hexpad c L) as (a & b & d & e & -> & E).
    apply scanstring_u_alone; [exact E|].
    apply andb_false_iff. left. unfold is_high_surrogate.
    apply andb_false_iff. unfold is_scalar in SC.
    destruct SC as [SC|[SC _]]; [left; apply N.leb_gt | right; apply N.leb_gt]; lia. }
  cbv zeta.
  assert (R : 65536 <= c <= 1114111) by (unfold is_scalar in SC; lia).
  pose proof (join_halves c R) as JH. cbv zeta in JH.
  destruct (high_half (N.shiftr (c - 65536) 10)) as [H1 L1].
  destruct (low_half (c - 65536)) as [H2 L2].
  cbv zeta in H1, L1, H2, L2.
  destruct (int16_hexpad _ L1) as (a1 & b1 & d1 & e1 & -> & E1).
  destruct (int16_hexpad _ L2) as (a2 & b2 & d2 & e2 & -> & E2).
  cbn [app].
  rewrite (scanstring_u_pair _ _ _ _ _ _ _ _ _ _ t E1 H1 E2), H2, JH.
  reflexivity.
Qed.

Lemma scanstring_encoded_scalar (s rest : pystr) :
  Forall is_scalar s ->
  scanstring (flat_map encode_char s ++ dquote :: rest) = Some (s, rest).
Proof.
  induction 1 as [|c s SC _ IH]; [reflexivity|].
  cbn [flat_map]. rewrite <- app_assoc, (scanstring_encode_char c _ SC), IH.
  reflexivity.
Qed.

Lemma echo_prefix_scalar : Forall is_scalar (U "echo: ").
Proof. repeat constructor. Qed.

(* ------------------------------------------------------------------ *)
(** ** Integers in decimal: [str] and [int] are inverse *)

Lemma uint_digits_are_digits (d : Decimal.uint) :
  Forall (fun c => is_digit c = true) (uint_digits d).
Proof. induction d; cbn [uint_digits]; constructor; auto. Qed.

Lemma digits_value_acc (d : Decimal.uint) (acc : positive) :
  fold_left (fun a c => (10 * a + Z.of_N (c - 48))%Z) (uint_digits d) (Zpos acc)
  = Zpos (Pos.of_uint_acc d acc).
Proof.
  revert acc. induction d; intros acc; cbn [uint_digits fold_left Pos.of_uint_acc];
    [reflexivity | ..];
    match goal with
    | |- fold_left _ _ ?x = Zpos (Pos.of_uint_acc _ ?y) =>
        replace x with (Zpos y) by lia
    end; apply IHd.
Qed.

Lemma digits_value_of_uint (d : Decimal.uint) :
  digits_value (uint_digits d) = Z.of_N (Pos.of_uint d).
Proof.
  unfold digits_value.
  induction d; cbn [uint_digits fold_left Pos.of_uint]; try reflexivity;
    try exact IHd; apply (digits_value_acc d).
Qed.

Lemma digits_value_to_uint (p : positive) :
  digits_value (uint_digits (Pos.to_uint p)) = Zpos p.
Proof. rewrite digits_value_of_uint, DecimalPos.Unsigned.of_to. reflexivity. Qed.

Lemma nzhead_shape (d : Decimal.uint) :
  Decimal.nzhead d = Decimal.Nil \/ starts_nonzero (Decimal.nzhead d).
Proof. induction d; cbn; auto. Qed.

(** The numeral of a positive number has no leading zero. *)
Lemma to_uint_starts_nonzero (p : positive) : starts_nonzero (Pos.to_uint p).
Proof.
  pose proof (DecimalPos.Unsigned.to_of (Pos.to_uint p)) as E.
  rewrite DecimalPos.Unsigned.of_to in E. cbn [N.to_uint] in E.
  pose proof (DecimalPos.Unsigned.to_uint_nonzero p) as NZ.
  unfold Decimal.unorm in E.
  destruct (nzhead_shape (Pos.to_uint p)) as [H|H].
  - rewrite H in E. congruence.
  - destruct (Decimal.nzhead (Pos.to_uint p)) eqn:K;
      try contradiction; rewrite E; exact I.
Qed.

Lemma uint_digits_nonzero_head (d : Decimal.uint) :
  starts_nonzero d ->
  exists c ds, uint_digits d = c :: ds /\ 49 <= c <= 57 /\
               Forall (fun x => is_digit x = true) ds.
Proof.
  destruct d; cbn [starts_nonzero uint_digits]; intros H; try contradiction;
    do 2 eexists; (split; [reflexivity|]);
    (split; [lia | apply uint_digits_are_digits]).
Qed.

Lemma span_digits_run (ds r : pystr) :
  Forall (fun x => is_digit x = true) ds ->
  match r with c :: _ => is_digit c = false | [] => True end ->
  span_digits (ds ++ r) = (ds, r).
Proof.
  intros F R. induction F as [|c ds D _ IH]; cbn [app span_digits].
  - destruct r as [|c r]; [reflexivity|]. cbn [span_digits]. rewrite R. reflexivity.
  - rewrite D, IH. reflexivity.
Qed.

(** The scanner matches the decimal form of [z], before a closing brace,
    as an integer lexeme with neither fraction nor exponent. *)
Lemma match_number_int_str (z : Z) :
  match_number (int_str z ++ U "}") = Some (int_str z, [], [], U "}").
Proof.
  assert (K : forall p,
    exists c ds, uint_digits (Pos.to_uint p) = c :: ds /\ 49 <= c <= 57 /\
      match_integer (c :: ds ++ U "}") = Some (c :: ds, U "}") /\
      match_integer (ord "-" :: c :: ds ++ U "}") = Some (ord "-" :: c :: ds, U "}")).
  { intros p.
    destruct (uint_digits_nonzero_head _ (to_uint_starts_nonzero p))
      as (c & ds & E & R & F).
    exists c, ds. split; [exact E|]. split; [exact R|].
    assert (C1 : (c =? ord "-") = false) by (apply N.eqb_neq; cbn; lia).
    assert (C2 : (c =? 48) = false) by (apply N.eqb_neq; lia).
    assert (C3 : is_digit c = true).
    { unfold is_digit. apply andb_true_iff. split; apply N.leb_le; lia. }
    unfold match_integer.
    change (ord "-" =? ord "-") with true. cbv iota.
    rewrite C1, C2, C3, (span_digits_run ds (U "}") F eq_refl).
    split; reflexivity. }
  unfold match_number. destruct z as [|p|p]; cbn [int_str].
  - reflexivity.
  - destruct (K p) as (c & ds & E & R & M & _). rewrite E.
    cbn [app]. rewrite M. reflexivity.
  - destruct (K p) as (c & ds & E & R & _ & M). rewrite E.
    cbn [app]. rewrite M. reflexivity.
Qed.

(** [int] undoes [str] on integers. *)
Lemma int_of_lexeme_int_str (z : Z) : int_of_lexeme (int_str z) = z.
Proof.
  destruct z as [|p|p]; cbn [int_str]; [reflexivity | |].
  - destruct (uint_digits_nonzero_head _ (to_uint_starts_nonzero p))
      as (c & ds & E & R & _).
    pose proof (digits_value_to_uint p) as V. rewrite E in *.
    unfold int_of_lexeme.
    replace (c =? ord "-") with false by (symmetry; apply N.eqb_neq; cbn; lia).
    exact V.
  - unfold int_of_lexeme. change (ord "-" =? ord "-") with true. cbv iota.
    rewrite digits_value_to_uint. reflexivity.
Qed.

(** The first character of a decimal integer: a digit or the minus sign. *)
Lemma int_str_head (z : Z) :
  exists c t, int_str z = c :: t /\ (c = 45 \/ 48 <= c <= 57).
Proof.
  destruct z as [|p|p]; cbn [int_str].
  - do 2 eexists. split; [reflexivity | right; lia].
  - destruct (uint_digits_nonzero_head _ (to_uint_starts_nonzero p))
      as (c & ds & E & R & _).
    exists c, ds. split; [exact E | right; lia].
  - do 2 eexists. split; [reflexivity | left; reflexivity].
Qed.

Lemma int_str_plain (z : Z) : Forall is_plain (int_str z).
Proof.
  assert (D : forall d, Forall is_plain (uint_digits d)).
  { intros d. pose proof (uint_digits_are_digits d) as F.
    eapply Forall_impl; [|exact F]. intros c H. unfold is_digit in H.
    apply andb_true_iff in H as [H1 H2]. apply N.leb_le in H1, H2.
    unfold is_plain, dquote, backslash. lia. }
  destruct z as [|p|p]; cbn [int_str].
  - constructor; [unfold is_plain, dquote, backslash; lia | constructor].
  - apply D.
  - constructor; [unfold is_plain, dquote, backslash; cbn; lia | apply D].
Qed.

(** [json.loads] on the argument whose [text] is the integer [z]:
    [int()] refuses the digits or gives [z]. *)
Lemma loads_int_argument (d : nat) (m : N) (z : Z) :
  json_loads (S d) m (int_argument z)
  = if digits_refused m (count_digits (int_str z)) then RaisesValueError
    else Value (PDict [(U "text", PInt z)]).
Proof.
  unfold int_argument, json_loads.
  pose proof (match_number_int_str z) as M.
  destruct (int_str_head z) as (c & t & E & H).
  set (val := int_str z ++ U "}") in *.
  change (J "{'text': " ++ int_str z ++ U "}") with (J "{'text': " ++ val).
  change (strip_prefix [65279] (J "{'text': " ++ val)) with (@None pystr).
  assert (F : exists f, fuel_for (J "{'text': " ++ val) = S (S (S f))).
  { unfold fuel_for. cbn [J U map list_ascii_of_string app length].
    eexists. rewrite Nat.mul_succ_r, Nat.add_succ_r. reflexivity. }
  destruct F as [f F]. rewrite F.
  assert (V : val = c :: t ++ U "}") by (unfold val; rewrite E; reflexivity).
  assert (N1 : (c =? dquote) = false) by (apply N.eqb_neq; unfold dquote; lia).
  assert (N2 : (c =? ord "{") = false) by (apply N.eqb_neq; cbn; lia).
  assert (N3 : (c =? ord "[") = false) by (apply N.eqb_neq; cbn; lia).
  assert (N4 : is_ws c = false).
  { unfold is_ws. repeat (apply orb_false_iff; split); apply N.eqb_neq; lia. }
  assert (N5 : (110 =? c) = false) by (apply N.eqb_neq; lia).
  assert (N6 : (116 =? c) = false) by (apply N.eqb_neq; lia).
  assert (N7 : (102 =? c) = false) by (apply N.eqb_neq; lia).
  assert (SC : scan_once m (S f) d val
               = if digits_refused m (count_digits (int_str z))
                 then TooManyDigits else Parsed (PInt z) (U "}")).
  { cbn [scan_once]. rewrite V, N1, N2, N3, <- V.
    unfold scan_scalar. rewrite V.
    change (U "null") with (110 :: U "ull").
    change (U "true") with (116 :: U "rue").
    change (U "false") with (102 :: U "alse").
    cbn [strip_prefix]. rewrite N5, N6, N7, <- V, M.
    unfold number_value. cbn [app]. rewrite int_of_lexeme_int_str.
    destruct (digits_refused _ _); reflexivity. }
  assert (W : skip_ws (32 :: val) = val).
  { cbn [skip_ws]. change (is_ws 32) with true. cbv iota.
    rewrite V. cbn [skip_ws]. rewrite N4. reflexivity. }
  change (J "{'text': " ++ val)
    with (ord "{" :: dquote :: U "text" ++ dquote :: ord ":" :: 32 :: val).
  remember (32 :: val) as sval eqn:Hs.
  remember (S f) as f1 eqn:Hf.
  cbn. rewrite W, SC.
  destruct (digits_refused _ _); reflexivity.
Qed.

(* ------------------------------------------------------------------ *)
(** ** Arguments written by [json.dumps] *)

Lemma fuel_for_cons4 (a b c d : N) (s : pystr) :
  exists f, fuel_for (a :: b :: c :: d :: s) = S (S (S (S (S f)))).
Proof.
  unfold fuel_for. cbn [length]. eexists.
  rewrite !Nat.mul_succ_r, !Nat.add_succ_r. reflexivity.
Qed.

(** The scanner on an object with the one key [text] and a string value,
    as the encoder writes it. *)
Lemma scan_text_object (m : N) (f d : nat) (body str : pystr) :
  scanstring (body ++ J "'}") = Some (str, U "}") ->
  scan_once m (S (S (S f))) (S d) (J "{'text': '" ++ body ++ J "'}")
  = Parsed (PDict [(U "text", PStr str)]) [].
Proof.
  intros E.
  change (J "{'text': '" ++ body ++ J "'}") with
    (ord "{" :: dquote :: U "text" ++ dquote :: ord ":" :: 32 :: dquote
       :: (body ++ J "'}")).
  remember (body ++ J "'}") as tail eqn:Ht. clear Ht.
  cbn. rewrite E. reflexivity.
Qed.

(** The same with the key written twice: the second value is kept. *)
Lemma scan_text_twice (m : N) (f d : nat) (body1 body2 str1 str2 : pystr) :
  (forall rest, scanstring (body1 ++ dquote :: rest) = Some (str1, rest)) ->
  scanstring (body2 ++ J "'}") = Some (str2, U "}") ->
  scan_once m (S (S (S (S f)))) (S d)
    (J "{'text': '" ++ body1 ++ J "', 'text': '" ++ body2 ++ J "'}")
  = Parsed (PDict [(U "text", PStr str2)]) [].
Proof.
  intros E1 E2.
  change (J "{'text': '" ++ body1 ++ J "', 'text': '" ++ body2 ++ J "'}") with
    (ord "{" :: dquote :: U "text" ++ dquote :: ord ":" :: 32 :: dquote
       :: (body1 ++ dquote
             :: (ord "," :: 32 :: dquote :: U "text" ++ dquote :: ord ":" :: 32
                   :: dquote :: (body2 ++ J "'}")))).
  remember (body2 ++ J "'}") as tail2 eqn:Ht2. clear Ht2.
  remember (ord "," :: 32 :: dquote :: U "text" ++ dquote :: ord ":" :: 32
              :: dquote :: tail2) as rest1 eqn:Hr.
  specialize (E1 rest1).
  remember (body1 ++ dquote :: rest1) as tail1 eqn:Ht1. clear Ht1.
  cbn. rewrite E1, Hr. cbn. rewrite E2. reflexivity.
Qed.

Lemma dumps_text (s : pystr) :
  json_dumps [(U "text", s)] = J "{'text': '" ++ flat_map encode_char s ++ J "'}".
Proof.
  unfold json_dumps, encode_basestring_ascii. cbn [map join fst snd].
  change (flat_map encode_char (U "text")) with (U "text").
  change (J "{'text': '") with
    (U "{" ++ (dquote :: U "text" ++ [dquote]) ++ U ": " ++ [dquote]).
  change (J "'}") with ([dquote] ++ U "}").
  repeat (rewrite <- ?app_assoc, <- ?app_comm_cons). reflexivity.
Qed.

(** [json.loads] undoes [json.dumps] on the record with the one key
    [text], for a text without surrogates. *)
Lemma loads_dumps_text (d : nat) (m : N) (s : pystr) :
  Forall is_scalar s ->
  json_loads (S d) m (json_dumps [(U "text", s)])
  = Value (PDict [(U "text", PStr s)]).
Proof.
  intros SC. rewrite dumps_text. unfold json_loads.
  set (body := flat_map encode_char s).
  change (strip_prefix [65279] (J "{'text': '" ++ body ++ J "'}"))
    with (@None pystr).
  destruct (fuel_for_cons4 (ord "{") dquote (ord "t") (ord "e")
              (U "xt" ++ dquote :: ord ":" :: 32 :: dquote :: body ++ J "'}"))
    as [f F].
  change (J "{'text': '" ++ body ++ J "'}") with
    (ord "{" :: dquote :: ord "t" :: ord "e"
       :: (U "xt" ++ dquote :: ord ":" :: 32 :: dquote :: body ++ J "'}")) at 1.
  rewrite F.
  change (skip_ws (J "{'text': '" ++ body ++ J "'}"))
    with (J "{'text': '" ++ body ++ J "'}").
  rewrite (scan_text_object m _ d body s); [reflexivity|].
  change (J "'}") with (dquote :: U "}").
  apply scanstring_encoded_scalar. exact SC.
Qed.

(** The argument with the key [text] twice, both values written by the
    encoder. *)
Lemma loads_text_twice (d : nat) (m : N) (a b : pystr) :
  Forall is_scalar a -> Forall is_scalar b ->
  json_loads (S d) m (J "{'text': '" ++ flat_map encode_char a ++ J "', 'text': '"
                ++ flat_map encode_char b ++ J "'}")
  = Value (PDict [(U "text", PStr b)]).
Proof.
  intros SA SB. unfold json_loads.
  set (A := J "{'text': '" ++ flat_map encode_char a ++ J "', 'text': '"
              ++ flat_map encode_char b ++ J "'}").
  change (strip_prefix [65279] A) with (@None pystr).
  assert (F : exists f, fuel_for A = S (S (S (S f)))).
  { destruct (fuel_for_cons4 (ord "{") dquote (ord "t") (ord "e")
                (U "xt" ++ dquote :: ord ":" :: 32 :: dquote
                   :: flat_map encode_char a ++ J "', 'text': '"
                   ++ flat_map encode_char b ++ J "'}")) as [f F].
    exists (S f). exact F. }
  destruct F as [f F]. rewrite F.
  change (skip_ws A) with A. unfold A.
  rewrite (scan_text_twice m f d _ _ a b); [reflexivity | |].
  - intros rest. apply scanstring_encoded_scalar. exact SA.
  - change (J "'}") with (dquote :: U "}").
    apply scanstring_encoded_scalar. exact SB.
Qed.

(* ------------------------------------------------------------------ *)
(** ** More budget changes nothing; white space before the document *)

(** A scan that did not run out gives the same result with one more unit
    of budget. *)
Lemma scanner_more_fuel (m : N) (f : nat) :
  (forall d s, scan_once m f d s <> NoFuel ->
               scan_once m (S f) d s = scan_once m f d s) /\
  (forall d s pairs, object_loop m f d s pairs <> NoFuel ->
                     object_loop m (S f) d s pairs = object_loop m f d s pairs) /\
  (forall d s values, array_loop m f d s values <> NoFuel ->
                      array_loop m (S f) d s values = array_loop m f d s values).
Proof.
  induction f as [|f (IHs & IHo & IHa)].
  { repeat split; intros; cbn in *; congruence. }
  repeat split.
  - intros d s H.
    change (scan_once m (S (S f)) d s) with
      (match s with
       | [] => DecodeError
       | c :: t =>
           if c =? dquote then
             match scanstring t with
             | Some (str, r) => Parsed (PStr str) r
             | None => DecodeError
             end
           else if c =? ord "{" then
             match d with
             | O => TooDeep
             | S d' =>
                 match skip_ws t with
                 | c1 :: t1 =>
                     if c1 =? ord "}" then Parsed (PDict []) t1
                     else if c1 =? dquote then object_loop m (S f) d' t1 []
                     else DecodeError
                 | [] => DecodeError
                 end
             end
           else if c =? ord "[" then
             match d with
             | O => TooDeep
             | S d' =>
                 match skip_ws t with
                 | c1 :: t1 =>
                     if c1 =? ord "]" then Parsed (PList []) t1
                     else array_loop m (S f) d' (c1 :: t1) []
                 | [] => array_loop m (S f) d' [] []
                 end
             end
           else scan_scalar m s
       end).
    cbn [scan_once] in H |- *.
    destruct s as [|c t]; [reflexivity|].
    destruct (c =? dquote); [reflexivity|].
    destruct (c =? ord "{").
    { destruct d as [|d']; [reflexivity|].
      destruct (skip_ws t) as [|c1 t1]; [reflexivity|].
      destruct (c1 =? ord "}"); [reflexivity|].
      destruct (c1 =? dquote); [|reflexivity].
      apply IHo. exact H. }
    destruct (c =? ord "["); [|reflexivity].
    destruct d as [|d']; [reflexivity|].
    destruct (skip_ws t) as [|c1 t1]; [apply IHa; exact H|].
    destruct (c1 =? ord "]"); [reflexivity|].
    apply IHa. exact H.
  - intros d s pairs H.
    change (object_loop m (S (S f)) d s pairs) with
      (match scanstring s with
       | None => DecodeError
       | Some (key, s1) =>
           match skip_ws s1 with
           | c :: s2 =>
               if c =? ord ":" then
                 match scan_once m (S f) d (skip_ws s2) with
                 | Parsed value s3 =>
                     let pairs' := pairs ++ [(key, value)] in
                     match skip_ws s3 with
                     | c1 :: s4 =>
                         if c1 =? ord "}" then Parsed (PDict (dict_of_pairs pairs')) s4
                         else if c1 =? ord "," then
                           match skip_ws s4 with
                           | c2 :: s5 =>
                               if c2 =? dquote then object_loop m (S f) d s5 pairs'
                               else DecodeError
                           | [] => DecodeError
                           end
                         else DecodeError
                     | [] => DecodeError
                     end
                 | DecodeError => DecodeError
                 | TooDeep => TooDeep
                 | TooManyDigits => TooManyDigits
                 | NoFuel => NoFuel
                 end
               else DecodeError
           | [] => DecodeError
           end
       end).
    cbn [object_loop] in H |- *.
    destruct (scanstring s) as [[key s1]|]; [|reflexivity].
    destruct (skip_ws s1) as [|c s2]; [reflexivity|].
    destruct (c =? ord ":"); [|reflexivity].
    assert (N : scan_once m f d (skip_ws s2) <> NoFuel).
    { intros E. rewrite E in H. apply H. reflexivity. }
    rewrite (IHs _ _ N).
    destruct (scan_once m f d (skip_ws s2)) as [value s3| | | |]; try reflexivity.
    cbv zeta in H |- *.
    destruct (skip_ws s3) as [|c1 s4]; [reflexivity|].
    destruct (c1 =? ord "}"); [reflexivity|].
    destruct (c1 =? ord ","); [|reflexivity].
    destruct (skip_ws s4) as [|c2 s5]; [reflexivity|].
    destruct (c2 =? dquote); [|reflexivity].
    apply IHo. exact H.
  - intros d s values H.
    change (array_loop m (S (S f)) d s values) with
      (match scan_once m (S f) d s with
       | Parsed value s1 =>
           let values' := values ++ [value] in
           match skip_ws s1 with
           | c :: s2 =>
               if c =? ord "]" then Parsed (PList values') s2
               else if c =? ord "," then array_loop m (S f) d (skip_ws s2) values'
               else DecodeError
           | [] => DecodeError
           end
       | DecodeError => DecodeError
       | TooDeep => TooDeep
       | TooManyDigits => TooManyDigits
       | NoFuel => NoFuel
       end).
    cbn [array_loop] in H |- *.
    assert (N : scan_once m f d s <> NoFuel).
    { intros E. rewrite E in H. apply H. reflexivity. }
    rewrite (IHs _ _ N).
    destruct (scan_once m f d s) as [value s1| | | |]; try reflexivity.
    cbv zeta in H |- *.
    destruct (skip_ws s1) as [|c s2]; [reflexivity|].
    destruct (c =? ord "]"); [reflexivity|].
    destruct (c =? ord ","); [|reflexivity].
    apply IHa. exact H.
Qed.

Lemma scan_once_more_fuel (m : N) (k f d : nat) (s : pystr) :
  scan_once m f d s <> NoFuel -> scan_once m (k + f) d s = scan_once m f d s.
Proof.
  intros H. induction k as [|k IH]; [reflexivity|].
  cbn [Nat.add]. rewrite <- IH.
  apply scanner_more_fuel. rewrite IH. exact H.
Qed.

Lemma skip_ws_leading (ws s : pystr) :
  Forall (fun c => is_ws c = true) ws -> skip_ws (ws ++ s) = skip_ws s.
Proof.
  induction 1 as [|c ws W _ IH]; [reflexivity|].
  cbn [app skip_ws]. rewrite W. exact IH.
Qed.

(** White space before the document does not change what [json.loads]
    makes of it. *)
Lemma loads_leading_space (d : nat) (m : N) (ws s : pystr) :
  Forall (fun c => is_ws c = true) ws ->
  json_loads d m (ws ++ s) = json_loads d m s.
Proof.
  intros W. destruct ws as [|c ws]; [reflexivity|].
  inversion W as [|? ? Wc Wt]; subst.
  assert (NB : strip_prefix [65279] ((c :: ws) ++ s) = None).
  { cbn [app strip_prefix]. unfold is_ws in Wc.
    destruct (N.eqb_spec 65279 c) as [<-|]; [discriminate Wc | reflexivity]. }
  pose proof (scan_once_enough d m s) as P.
  assert (F : fuel_for ((c :: ws) ++ s) = (2 * length (c :: ws) + fuel_for s)%nat).
  { unfold fuel_for. rewrite length_app. lia. }
  unfold json_loads at 1. rewrite NB, (skip_ws_leading _ s W), F.
  rewrite (scan_once_more_fuel _ _ _ _ _ P).
  unfold json_loads.
  destruct (strip_prefix [65279] s) as [r|] eqn:B; [|reflexivity].
  (* a byte-order mark after the white space is no document either *)
  destruct s as [|b s']; [discriminate B|].
  cbn [strip_prefix] in B.
  destruct (N.eqb_spec 65279 b) as [<-|]; [|discriminate B].
  change (skip_ws (65279 :: s')) with (65279 :: s').
  unfold fuel_for. cbn [scan_once].
  change (65279 =? dquote) with false.
  change (65279 =? ord "{") with false.
  change (65279 =? ord "[") with false. cbv iota.
  unfold scan_scalar, match_number, match_integer.
  change (U "null") with (110 :: U "ull").
  change (U "true") with (116 :: U "rue").
  change (U "false") with (102 :: U "alse").
  change (U "NaN") with (78 :: U "aN").
  change (U "Infinity") with (73 :: U "nfinity").
  change (U "-Infinity") with (45 :: U "Infinity").
  cbn [strip_prefix].
  reflexivity.
Qed.

(* ------------------------------------------------------------------ *)
(** ** Different texts, different lines *)

Lemma echo_line_injective (s s' : pystr) :
  Forall is_scalar s -> Forall is_scalar s' ->
  echo_line s = echo_line s' -> s = s'.
Proof.
  intros SC SC' E.
  assert (L : forall x, Forall is_scalar x ->
            json_loads 1 0 (echo_line x)
            = Value (PDict [(U "content", PStr (U "echo: " ++ x))])).
  { intros x Hx. apply loads_echo_line_as.
    change (J "'}") with (dquote :: U "}").
    apply scanstring_encoded_scalar.
    apply Forall_app. split; [apply echo_prefix_scalar | exact Hx]. }
  pose proof (L s SC) as L1. pose proof (L s' SC') as L2.
  rewrite E, L2 in L1. injection L1 as L1. symmetry. exact L1.
Qed.

(* ------------------------------------------------------------------ *)
(** ** White space after the document *)

(** The four white-space characters of JSON. *)
Lemma ws_cases (c : N) : is_ws c = true -> c = 32 \/ c = 9 \/ c = 10 \/ c = 13.
Proof.
  unfold is_ws. intros H.
  repeat (apply orb_true_iff in H as [H|H]); apply N.eqb_eq in H; auto.
Qed.

Ltac by_ws_cases w W := destruct (ws_cases w W) as [-> | [-> | [-> | ->]]].

(** White space holds no closing quote. *)
Lemma scanstring_blank (x : pystr) : blank x -> scanstring x = None.
Proof.
  induction 1 as [|c x W _ IH]; [reflexivity|].
  by_ws_cases c W; cbn; try reflexivity.
  rewrite IH. reflexivity.
Qed.

Lemma push_trail (c : N) (x : pystr) (o : option (pystr * pystr)) :
  push c (trail_opt x o) = trail_opt x (push c o).
Proof. destruct o as [[a r]|]; reflexivity. Qed.

(** A white-space character is no hexadecimal digit, wherever it stands
    among the four of an escape. *)
Lemma int16_ws1 (c b d e : N) : is_ws c = true -> int16 c b d e = None.
Proof. intros W. by_ws_cases c W; reflexivity. Qed.

Lemma int16_ws2 (a c d e : N) : is_ws c = true -> int16 a c d e = None.
Proof.
  intros W. unfold int16. by_ws_cases c W; destruct (hexval a); reflexivity.
Qed.

Lemma int16_ws3 (a b c e : N) : is_ws c = true -> int16 a b c e = None.
Proof.
  intros W. unfold int16.
  by_ws_cases c W; destruct (hexval a), (hexval b); reflexivity.
Qed.

Lemma int16_ws4 (a b d c : N) : is_ws c = true -> int16 a b d c = None.
Proof.
  intros W. unfold int16.
  by_ws_cases c W; destruct (hexval a), (hexval b), (hexval d); reflexivity.
Qed.

Lemma ws_not_backslash (w : N) : is_ws w = true -> (w =? backslash) = false.
Proof. intros W. by_ws_cases w W; reflexivity. Qed.

Lemma ws_not_u (w : N) : is_ws w = true -> (w =? ord "u") = false.
Proof. intros W. by_ws_cases w W; reflexivity. Qed.

Lemma trail_opt_nil {A} (o : option (A * pystr)) : trail_opt [] o = o.
Proof. destruct o as [[a r]|]; cbn; [rewrite app_nil_r|]; reflexivity. Qed.

Ltac blank_inv :=
  repeat match goal with
         | H : Forall _ (_ :: _) |- _ => inversion H; clear H; subst
         end.

Ltac short_hex x :=
  destruct x as [|? [|? [|? [|? ?]]]]; try reflexivity; blank_inv;
  first [ rewrite int16_ws1 by assumption
        | rewrite int16_ws2 by assumption
        | rewrite int16_ws3 by assumption
        | rewrite int16_ws4 by assumption ];
  reflexivity.

(** White space added after a text changes nothing to the string literal
    read at its head, closed or not. *)
Lemma scanstring_trail (x : pystr) :
  blank x ->
  forall s, scanstring (s ++ x) = trail_opt x (scanstring s).
Proof.
  intros B. unfold blank in B.
  destruct x as [|w x'].
  { intros s. rewrite app_nil_r, trail_opt_nil. reflexivity. }
  assert (Bx := B). inversion B as [|? ? W B']; subst.
  set (x := w :: x') in *.
  assert (SB : scanstring x = None) by (apply scanstring_blank; exact Bx).
  enough (G : forall n s, (length s <= n)%nat ->
                scanstring (s ++ x) = trail_opt x (scanstring s))
    by (intros s; apply (G (length s)); lia).
  induction n as [|n IH]; intros s Hle.
  { destruct s; [|simpl in Hle; lia]. cbn [app]. rewrite SB. reflexivity. }
  destruct s as [|c t]; [cbn [app]; rewrite SB; reflexivity|].
  simpl in Hle.
  cbn [app scanstring].
  destruct (c =? dquote); [reflexivity|].
  destruct (c =? backslash).
  2:{ destruct (c <? 32); [reflexivity|]. rewrite IH by lia. apply push_trail. }
  destruct t as [|esc t1].
  { unfold x. cbn [app]. rewrite (ws_not_u w W).
    by_ws_cases w W; reflexivity. }
  cbn [app]. simpl in Hle.
  destruct (esc =? ord "u").
  2:{ destruct (BACKSLASH esc); [|reflexivity]. rewrite IH by lia. apply push_trail. }
  destruct t1 as [|h1 [|h2 [|h3 [|h4 t2]]]]; cbn [app];
    try (unfold x; clear IH SB; short_hex x').
  simpl in Hle.
  destruct (int16 h1 h2 h3 h4) as [uni|]; [|reflexivity].
  destruct t2 as [|b [|u t3]]; cbn [app].
  - (* nothing after the escape *)
    cbn [scanstring push trail_opt].
    assert (E : push uni (scanstring x) = None) by (rewrite SB; reflexivity).
    unfold x in *. destruct x' as [|w2 x2]; [exact E|].
    rewrite (ws_not_backslash w W), andb_false_r. exact E.
  - (* one character after the escape *)
    unfold x at 1. rewrite (ws_not_u w W), andb_false_r.
    fold x. change (b :: x) with ([b] ++ x).
    rewrite IH by (simpl; lia). apply push_trail.
  - simpl in Hle.
    destruct (is_high_surrogate uni && (b =? backslash) && (u =? ord "u")).
    2:{ change (b :: u :: t3 ++ x) with ((b :: u :: t3) ++ x).
        rewrite IH by (simpl; lia). apply push_trail. }
    destruct t3 as [|k1 [|k2 [|k3 [|k4 t4]]]]; cbn [app];
      try (unfold x; clear IH SB; short_hex x').
    simpl in Hle.
    destruct (int16 k1 k2 k3 k4) as [uni2|]; [|reflexivity].
    destruct (is_low_surrogate uni2).
    + rewrite IH by lia. apply push_trail.
    + change (b :: u :: k1 :: k2 :: k3 :: k4 :: t4 ++ x)
        with ((b :: u :: k1 :: k2 :: k3 :: k4 :: t4) ++ x).
      rewrite IH by (simpl; lia). apply push_trail.
Qed.

Lemma skip_ws_trail (x s : pystr) :
  blank x ->
  skip_ws (s ++ x) = match skip_ws s with [] => [] | r => r ++ x end.
Proof.
  intros B. induction s as [|c t IH]; cbn [app skip_ws].
  - apply skip_ws_blank. exact B.
  - destruct (is_ws c); [exact IH | reflexivity].
Qed.

Lemma strip_prefix_trail (p x s : pystr) :
  blank x -> Forall (fun c => is_ws c = false) p ->
  strip_prefix p (s ++ x) = option_map (fun r => r ++ x) (strip_prefix p s).
Proof.
  intros B P. revert s. induction P as [|a p A _ IH]; intros s; [reflexivity|].
  destruct s as [|c t]; cbn [app strip_prefix option_map].
  - destruct B as [|w x W B]; [reflexivity|].
    destruct (N.eqb_spec a w) as [->|]; [congruence | reflexivity].
  - destruct (a =? c); [apply IH | reflexivity].
Qed.

Lemma ws_not_digit (w : N) : is_ws w = true -> is_digit w = false.
Proof. intros W. by_ws_cases w W; reflexivity. Qed.

Lemma span_digits_trail (x s : pystr) :
  blank x ->
  span_digits (s ++ x) = (fst (span_digits s), snd (span_digits s) ++ x).
Proof.
  intros B. induction s as [|c t IH]; cbn [app span_digits].
  - destruct B as [|w x W B]; [reflexivity|].
    cbn [span_digits]. rewrite (ws_not_digit w W). reflexivity.
  - destruct (is_digit c); [|reflexivity].
    rewrite IH. destruct (span_digits t). reflexivity.
Qed.

Lemma match_integer_trail (x s : pystr) :
  blank x ->
  match_integer (s ++ x)
  = option_map (fun ir => (fst ir, snd ir ++ x)) (match_integer s).
Proof.
  intros B.
  assert (H0 : match_integer x = None).
  { destruct B as [|w x W B]; [reflexivity|].
    unfold match_integer.
    by_ws_cases w W; reflexivity. }
  destruct s as [|c t]; [exact H0|].
  unfold match_integer. cbn [app].
  destruct (c =? ord "-").
  - destruct t as [|d t'].
    { cbn [app option_map]. destruct B as [|w x W B]; [reflexivity|].
      by_ws_cases w W; reflexivity. }
    cbn [app]. destruct (d =? 48); [reflexivity|].
    destruct (is_digit d); [|reflexivity].
    rewrite (span_digits_trail x t' B). destruct (span_digits t'). reflexivity.
  - destruct (c =? 48); [reflexivity|].
    destruct (is_digit c); [|reflexivity].
    rewrite (span_digits_trail x t B). destruct (span_digits t). reflexivity.
Qed.

Lemma ws_not_dot (w : N) : is_ws w = true -> (w =? ord ".") = false.
Proof. intros W. by_ws_cases w W; reflexivity. Qed.

Lemma ws_not_e (w : N) :
  is_ws w = true -> (w =? ord "e") || (w =? ord "E") = false.
Proof. intros W. by_ws_cases w W; reflexivity. Qed.

Lemma ws_not_sign (w : N) :
  is_ws w = true -> (w =? ord "-") || (w =? ord "+") = false.
Proof. intros W. by_ws_cases w W; reflexivity. Qed.

Lemma match_frac_trail (x s : pystr) :
  blank x ->
  match_frac (s ++ x) = (fst (match_frac s), snd (match_frac s) ++ x).
Proof.
  intros B. destruct s as [|c t].
  - destruct B as [|w x W B]; [reflexivity|].
    unfold match_frac. cbn [app]. rewrite (ws_not_dot w W). reflexivity.
  - unfold match_frac. cbn [app].
    destruct (c =? ord "."); [|reflexivity].
    rewrite (span_digits_trail x t B).
    destruct (span_digits t) as [[|d ds] r]; reflexivity.
Qed.

Lemma match_exp_trail (x s : pystr) :
  blank x ->
  match_exp (s ++ x) = (fst (match_exp s), snd (match_exp s) ++ x).
Proof.
  intros B. destruct s as [|c t].
  - destruct B as [|w x W B]; [reflexivity|].
    unfold match_exp. cbn [app]. rewrite (ws_not_e w W). reflexivity.
  - unfold match_exp. cbn [app].
    destruct ((c =? ord "e") || (c =? ord "E")); [|reflexivity].
    destruct t as [|g t'].
    + cbn [app].
      destruct B as [|w x W B]; [reflexivity|].
      rewrite (ws_not_sign w W).
      cbn [span_digits]. rewrite (ws_not_digit w W). reflexivity.
    + cbn [app].
      destruct ((g =? ord "-") || (g =? ord "+")).
      * rewrite (span_digits_trail x t' B).
        destruct (span_digits t') as [[|d ds] r]; reflexivity.
      * change (g :: t' ++ x) with ((g :: t') ++ x).
        rewrite (span_digits_trail x (g :: t') B).
        destruct (span_digits (g :: t')) as [[|d ds] r]; reflexivity.
Qed.

Lemma match_number_trail (x s : pystr) :
  blank x ->
  match_number (s ++ x)
  = option_map (fun vr => (fst vr, snd vr ++ x)) (match_number s).
Proof.
  intros B. unfold match_number.
  rewrite (match_integer_trail x s B).
  destruct (match_integer s) as [[i r0]|]; [|reflexivity].
  cbn [option_map fst snd].
  rewrite (match_frac_trail x r0 B). destruct (match_frac r0) as [frac r1].
  cbn [fst snd].
  rewrite (match_exp_trail x r1 B). destruct (match_exp r1) as [exp r2].
  cbn [fst snd].
  destruct (frac ++ exp); reflexivity.
Qed.

Lemma scan_scalar_trail (m : N) (x s : pystr) :
  blank x -> scan_scalar m (s ++ x) = trail x (scan_scalar m s).
Proof.
  intros B. unfold scan_scalar.
  rewrite !(strip_prefix_trail _ x s B) by (repeat constructor).
  rewrite (match_number_trail x s B).
  destruct (strip_prefix (U "null") s); [reflexivity|].
  destruct (strip_prefix (U "true") s); [reflexivity|].
  destruct (strip_prefix (U "false") s); [reflexivity|].
  destruct (match_number s) as [[[[i fr] ex] r]|].
  { cbn [option_map fst snd].
    destruct (number_value m i fr ex); reflexivity. }
  destruct (strip_prefix (U "NaN") s); [reflexivity|].
  destruct (strip_prefix (U "Infinity") s); [reflexivity|].
  destruct (strip_prefix (U "-Infinity") s); reflexivity.
Qed.

Lemma trail_nil (r : scan pyval) : trail [] r = r.
Proof. destruct r; cbn; [rewrite app_nil_r|..]; reflexivity. Qed.

Lemma scan_once_end (m : N) (x : pystr) (f d : nat) :
  trail x (scan_once m f d []) = scan_once m f d [].
Proof. destruct f; reflexivity. Qed.

Lemma array_loop_end (m : N) (x : pystr) (f d : nat) (vs : list pyval) :
  trail x (array_loop m f d [] vs) = array_loop m f d [] vs.
Proof. destruct f as [|[|f]]; reflexivity. Qed.

Lemma ws_not_opening (w : N) :
  is_ws w = true ->
  (w =? dquote) = false /\ (w =? ord "{") = false /\ (w =? ord "[") = false.
Proof. intros W. by_ws_cases w W; repeat split. Qed.

(** White space added after a text is left over by every scanning
    function, which otherwise does what it did. *)
Lemma scanner_trail (m : N) (x : pystr) (f : nat) :
  blank x ->
  (forall d s, scan_once m f d (s ++ x) = trail x (scan_once m f d s)) /\
  (forall d s pairs,
     object_loop m f d (s ++ x) pairs = trail x (object_loop m f d s pairs)) /\
  (forall d s values,
     array_loop m f d (s ++ x) values = trail x (array_loop m f d s values)).
Proof.
  intros B. induction f as [|f (IHs & IHo & IHa)].
  { repeat split; intros; reflexivity. }
  repeat split.
  - intros d s. destruct s as [|c t].
    + cbn [app]. destruct B as [|w x W B]; [reflexivity|].
      cbn [scan_once].
      destruct (ws_not_opening w W) as (-> & -> & ->).
      apply (scan_scalar_trail m (w :: x) []). constructor; assumption.
    + cbn [app scan_once].
      destruct (c =? dquote).
      { rewrite (scanstring_trail x B t).
        destruct (scanstring t) as [[str r]|]; reflexivity. }
      destruct (c =? ord "{").
      { destruct d as [|d']; [reflexivity|].
        rewrite (skip_ws_trail x t B).
        destruct (skip_ws t) as [|c1 t1]; [reflexivity|]. cbn [app].
        destruct (c1 =? ord "}"); [reflexivity|].
        destruct (c1 =? dquote); [apply IHo | reflexivity]. }
      destruct (c =? ord "[").
      { destruct d as [|d']; [reflexivity|].
        rewrite (skip_ws_trail x t B).
        destruct (skip_ws t) as [|c1 t1].
        - symmetry. apply array_loop_end.
        - cbn [app]. destruct (c1 =? ord "]"); [reflexivity|].
          apply (IHa d' (c1 :: t1)). }
      apply (scan_scalar_trail m x (c :: t) B).
  - intros d s pairs. cbn [object_loop].
    rewrite (scanstring_trail x B s).
    destruct (scanstring s) as [[key s1]|]; [|reflexivity]. cbn [trail_opt].
    rewrite (skip_ws_trail x s1 B).
    destruct (skip_ws s1) as [|c s2]; [reflexivity|]. cbn [app].
    destruct (c =? ord ":"); [|reflexivity].
    rewrite (skip_ws_trail x s2 B).
    assert (E : scan_once m f d match skip_ws s2 with [] => [] | r => r ++ x end
                = trail x (scan_once m f d (skip_ws s2))).
    { destruct (skip_ws s2) as [|c' r'].
      - symmetry. apply scan_once_end.
      - apply IHs. }
    rewrite E.
    destruct (scan_once m f d (skip_ws s2)) as [value s3| | | |]; try reflexivity.
    cbn [trail]. cbv zeta.
    rewrite (skip_ws_trail x s3 B).
    destruct (skip_ws s3) as [|c1 s4]; [reflexivity|]. cbn [app].
    destruct (c1 =? ord "}"); [reflexivity|].
    destruct (c1 =? ord ","); [|reflexivity].
    rewrite (skip_ws_trail x s4 B).
    destruct (skip_ws s4) as [|c2 s5]; [reflexivity|]. cbn [app].
    destruct (c2 =? dquote); [apply IHo | reflexivity].
  - intros d s values. cbn [array_loop].
    rewrite IHs.
    destruct (scan_once m f d s) as [value s1| | | |]; try reflexivity.
    cbn [trail]. cbv zeta.
    rewrite (skip_ws_trail x s1 B).
    destruct (skip_ws s1) as [|c s2]; [reflexivity|]. cbn [app].
    destruct (c =? ord "]"); [reflexivity|].
    destruct (c =? ord ","); [|reflexivity].
    rewrite (skip_ws_trail x s2 B).
    destruct (skip_ws s2) as [|c' r'].
    + symmetry. apply array_loop_end.
    + apply IHa.
Qed.

(** White space after the document does not change what [json.loads]
    makes of it. *)
Lemma loads_trailing_space (d : nat) (m : N) (s x : pystr) :
  blank x -> json_loads d m (s ++ x) = json_loads d m s.
Proof.
  intros B. unfold json_loads.
  rewrite (strip_prefix_trail [65279] x s B) by (repeat constructor).
  destruct (strip_prefix [65279] s); [reflexivity|]. cbn [option_map].
  pose proof (scan_once_enough d m s) as P.
  assert (F : fuel_for (s ++ x) = (2 * length x + fuel_for s)%nat).
  { unfold fuel_for. rewrite length_app. lia. }
  rewrite F, (skip_ws_trail x s B).
  assert (E : scan_once m (2 * length x + fuel_for s) d
                match skip_ws s with [] => [] | r => r ++ x end
              = trail x (scan_once m (fuel_for s) d (skip_ws s))).
  { rewrite <- (scan_once_more_fuel m (2 * length x) _ _ _ P).
    destruct (skip_ws s) as [|c r].
    - symmetry. apply scan_once_end.
    - apply scanner_trail. exact B. }
  rewrite E.
  destruct (scan_once m (fuel_for s) d (skip_ws s)) as [v rest| | | |];
    try reflexivity.
  cbn [trail]. rewrite (skip_ws_trail x rest B).
  destruct (skip_ws rest); reflexivity.
Qed.

(* ------------------------------------------------------------------ *)
(** ** The sample documents *)

Lemma loads_escapes_argument (d : nat) (m : N) :
  json_loads (S d) m escapes_argument
  = Value (PDict [(U "text", PStr escapes_text)]).
Proof. vm_compute. reflexivity. Qed.

Lemma dumps_escapes_text : echo_line escapes_text = escapes_line.
Proof. vm_compute. reflexivity. Qed.

Lemma loads_nested_argument (d : nat) (m : N) :
  json_loads (S (S (S (S d)))) m nested_argument
  = Value (PDict [(U "text", nested_value)]).
Proof. vm_compute. reflexivity. Qed.

(** What [json.loads] gives in every interpreter, it gives in the process
    [w]. *)
Lemma decoded_any (i : interpreter) (w : world) (A : pystr) (r : loaded) :
  (forall d m, json_loads (S d) m A = r) -> decoded i w A = r.
Proof. intros H. apply H. Qed.

(* ------------------------------------------------------------------ *)
(** ** Properties of the script *)

Section Properties.

Variable interp : interpreter.

Local Abbreviation run := (run_script interp).
Local Abbreviation to_str := (py_str interp).

(** Every run either prints one echo line, or is ended before it prints
    by [AttributeError], [RecursionError] or [ValueError]. *)
Lemma run_cases (w : world) :
  (exists s, run w = printed (echo_line s)) \/
  (exists e, run w = crashed e /\
             (e = AttributeError \/ e = RecursionError \/ e = ValueError)).
Proof.
  destruct (first_arg w) as [A|] eqn:FA.
  - destruct (decoded interp w A) as [v| | | |] eqn:L.
    + destruct v;
        try (right; exists AttributeError; split;
             [eapply run_not_object; eauto | auto]; fail).
      left. eexists. eapply run_object; eauto.
    + left. eexists. eapply run_undecodable; eauto.
    + right. exists RecursionError. split; [eapply run_too_deep; eauto | auto].
    + right. exists ValueError. split; [eapply run_too_many_digits; eauto | auto].
    + exfalso. exact (json_loads_total _ _ A L).
  - left. eexists. apply run_without_argument. exact FA.
Qed.


(** C1, as amended.  When [json.loads] decodes the argument to an object
    whose [text] is the string [s], the run prints one line and ends
    normally.  The line is what [json.dumps] makes of the record whose
    [content] is [echo: ] followed by [s]: it is made of printable ASCII
    characters; when [s] has only such characters, and neither a double
    quote nor a backslash, the line is [s] between the two parts of the
    frame; and when [s] has no surrogates, [json.loads] reads the record
    back from the line.  On the sample argument, which gives [text] twice
    and has a character of every kind that is escaped, the line is the
    one Python prints. *)
Theorem C1_text_string_is_echoed (w : world) (A : pystr)
    (d : list (pystr * pyval)) (s : pystr) :
  first_arg w = Some A ->
  decoded interp w A = Value (PDict d) ->
  dict_lookup d (U "text") = Some (PStr s) ->
  (exists line,
     run w = printed line /\
     line = json_dumps [(U "content", U "echo: " ++ s)] /\
     Forall printable_ascii line /\
     (Forall is_plain s -> line = J "{'content': 'echo: " ++ s ++ J "'}") /\
     (Forall is_scalar s ->
      forall dp m,
        json_loads (S dp) m line
        = Value (PDict [(U "content", PStr (U "echo: " ++ s))]))) /\
  (forall w', first_arg w' = Some escapes_argument ->
              run w' = printed escapes_line).
Proof.
  intros FA L T. split.
  - exists (echo_line s). split.
    { rewrite (run_object _ w A d FA L), T. reflexivity. }
    split; [reflexivity|].
    split; [apply echo_line_printable|].
    split.
    + intros P. rewrite echo_line_text, (encoded_plain s P). reflexivity.
    + intros SC. apply loads_echo_line_as.
      change (J "'}") with (dquote :: U "}").
      apply scanstring_encoded_scalar.
      apply Forall_app. split; [apply echo_prefix_scalar | exact SC].
  - intros w' FA'.
    rewrite (run_object _ w' _ _ FA'
               (decoded_any interp w' _ _ loads_escapes_argument)).
    rewrite <- dumps_escapes_text. reflexivity.
Qed.

(** C2, as amended.  When [json.loads] rejects the argument with
    [JSONDecodeError], nothing is raised to the caller: the arguments are
    taken to be the empty mapping, the line with the bare prefix is
    printed and the exit status is 0. *)
Theorem C2_malformed_json_falls_back (w : world) (A : pystr) :
  first_arg w = Some A ->
  decoded interp w A = RaisesJSONDecodeError ->
  run w = printed (J "{'content': 'echo: '}") /\
  uncaught (run w) = None /\ exit_status (run w) = 0%Z.
Proof.
  intros FA L. rewrite (run_undecodable _ w A FA L).
  repeat split.
Qed.

(** C3, as amended.  When the argument is absent, or is rejected by
    [json.loads] with [JSONDecodeError], or decodes to an object, no
    exception reaches the caller and the exit status is 0. *)
Theorem C3_described_inputs_exit_zero (w : world) :
  first_arg w = None \/
  (exists A, first_arg w = Some A /\
     (decoded interp w A = RaisesJSONDecodeError \/
      exists d, decoded interp w A = Value (PDict d))) ->
  uncaught (run w) = None /\ exit_status (run w) = 0%Z.
Proof.
  intros [FA | (A & FA & [L | [d L]])].
  - rewrite (run_without_argument _ w FA). split; reflexivity.
  - rewrite (run_undecodable _ w A FA L). split; reflexivity.
  - rewrite (run_object _ w A d FA L). split; reflexivity.
Qed.

(** C4. The arguments [5], [[1,2]] and [null] are decoded successfully, to
    values that are not objects; the fallback is therefore not taken, the
    call of [get] raises [AttributeError], and the run ends with status 1
    having written nothing. *)
Theorem C4_non_object_argument_crashes :
  ((forall d m, json_loads d m (U "5") = Value (PInt 5)) /\
   run (argv_only [echo_py; U "5"]) = crashed AttributeError) /\
  ((forall d m, json_loads (S d) m (U "[1,2]") = Value (PList [PInt 1; PInt 2])) /\
   run (argv_only [echo_py; U "[1,2]"]) = crashed AttributeError) /\
  ((forall d m, json_loads d m (U "null") = Value PNone) /\
   run (argv_only [echo_py; U "null"]) = crashed AttributeError) /\
  exit_status (crashed AttributeError) <> 0%Z /\
  stdout_of (io (crashed AttributeError)) = [].
Proof.
  assert (L5 : forall d m, json_loads d m (U "5") = Value (PInt 5))
    by (intros; vm_compute; reflexivity).
  assert (L12 : forall d m,
            json_loads (S d) m (U "[1,2]") = Value (PList [PInt 1; PInt 2]))
    by (intros; vm_compute; reflexivity).
  assert (Ln : forall d m, json_loads d m (U "null") = Value PNone)
    by (intros; vm_compute; reflexivity).
  split; [split; [exact L5|]|split; [split; [exact L12|]|split; [split; [exact Ln|]|]]].
  - exact (run_not_object _ (argv_only [echo_py; U "5"]) _ _ eq_refl
             (L5 _ _) eq_refl).
  - exact (run_not_object _ (argv_only [echo_py; U "[1,2]"]) _ _ eq_refl
             (L12 _ _) eq_refl).
  - exact (run_not_object _ (argv_only [echo_py; U "null"]) _ _ eq_refl
             (Ln _ _) eq_refl).
  - split; [discriminate | reflexivity].
Qed.

(** C5. Whenever a run writes anything, what it writes is one line, and
    that line is a JSON document which [json.loads] decodes to an object
    with the single key [content], whose value is a string. *)
Theorem C5_output_is_one_json_record (w : world) :
  io (run w) <> [] ->
  exists line str,
    io (run w) = [Write Stdout (line ++ [10])] /\
    ~ In 10 line /\
    forall d m, json_loads (S d) m line = Value (PDict [(U "content", PStr str)]).
Proof.
  intros NE. destruct (run_cases w) as [[s R] | (e & R & _)]; rewrite R in *.
  - destruct (loads_echo_line s) as [str L].
    exists (echo_line s), str. repeat split.
    + apply echo_line_one_line.
    + exact L.
  - exfalso. apply NE. reflexivity.
Qed.

(** C6. Without a command-line argument the arguments are the empty
    mapping and the line with the bare prefix is printed. *)
Theorem C6_no_argument (w : world) :
  (length (sys_argv w) <= 1)%nat ->
  run w = printed (J "{'content': 'echo: '}").
Proof.
  intros H. rewrite run_without_argument; [reflexivity|].
  unfold first_arg. destruct (sys_argv w) as [|p [|a r]]; try reflexivity.
  simpl in H. lia.
Qed.

(** C7, as amended.  When [json.loads] decodes the argument to an object
    without the key [text], the text defaults to the empty string and the
    line with the bare prefix is printed. *)
Theorem C7_object_without_text (w : world) (A : pystr) (d : list (pystr * pyval)) :
  first_arg w = Some A ->
  decoded interp w A = Value (PDict d) ->
  dict_lookup d (U "text") = None ->
  run w = printed (J "{'content': 'echo: '}").
Proof.
  intros FA L T. rewrite (run_object _ w A d FA L), T. reflexivity.
Qed.

(** C8. With the argument [{"text": 5}] the [text] is the number 5 and
    the printed record has the content [echo: 5]. *)
Theorem C8_number_text (w : world) :
  first_arg w = Some (J "{'text': 5}") ->
  (forall d m, json_loads (S d) m (J "{'text': 5}")
               = Value (PDict [(U "text", PInt 5)])) /\
  run w = printed (J "{'content': 'echo: 5'}").
Proof.
  intros FA.
  assert (L : forall d m, json_loads (S d) m (J "{'text': 5}")
                          = Value (PDict [(U "text", PInt 5)]))
    by (intros; vm_compute; reflexivity).
  split; [exact L|].
  rewrite (run_object _ w _ _ FA (decoded_any interp w _ _ L)). reflexivity.
Qed.

(** C9, as amended.  When [json.loads] decodes the argument to an object,
    whatever value the key [text] holds, the run does not fail: the
    content is [echo: ] followed by [str()] of the value.  For [null] that
    is [None], for [true] and [false] it is [True] and [False], as Python
    writes them; for an integer it is a decimal text that [int()] reads
    back as the same integer; for the empty array and the empty object it
    is [[]] and [{}].  On the sample argument, whose [text] is an array
    with integers, strings with quotes of either kind, [null], booleans
    and containers in it, the line is the one Python prints, in an
    interpreter that lets the scanner enter four containers. *)
Theorem C9_text_goes_through_str (w : world) (A : pystr)
    (d : list (pystr * pyval)) (v : pyval) :
  first_arg w = Some A ->
  decoded interp w A = Value (PDict d) ->
  dict_lookup d (U "text") = Some v ->
  (run w = printed (echo_line (to_str v)) /\
   (v = PNone -> run w = printed (J "{'content': 'echo: None'}")) /\
   (v = PBool true -> run w = printed (J "{'content': 'echo: True'}")) /\
   (v = PBool false -> run w = printed (J "{'content': 'echo: False'}")) /\
   (forall z, v = PInt z ->
      exists digits,
        run w = printed (J "{'content': 'echo: " ++ digits ++ J "'}") /\
        int_of_lexeme digits = z) /\
   (v = PList [] -> run w = printed (J "{'content': 'echo: []'}")) /\
   (v = PDict [] -> run w = printed (J "{'content': 'echo: {}'}"))) /\
  (forall w', first_arg w' = Some nested_argument ->
              (3 <= spare_depth interp)%nat ->
              run w' = printed nested_line).
Proof.
  intros FA L T.
  assert (R : run w = printed (echo_line (to_str v))).
  { rewrite (run_object _ w A d FA L), T. reflexivity. }
  split.
  - split; [exact R|]. rewrite R.
    split; [intros ->; reflexivity|].
    split; [intros ->; reflexivity|].
    split; [intros ->; reflexivity|].
    split; [|split; intros ->; reflexivity].
    intros z ->. exists (int_str z). split.
    + cbn [py_str py_repr].
      rewrite echo_line_text, (encoded_plain _ (int_str_plain z)). reflexivity.
    + apply int_of_lexeme_int_str.
  - intros w' FA' SD.
    assert (L' : decoded interp w' nested_argument
                 = Value (PDict [(U "text", nested_value)])).
    { unfold decoded, json_depth.
      destruct (spare_depth interp) as [|[|[|k]]]; try lia.
      apply loads_nested_argument. }
    rewrite (run_object _ w' _ _ FA' L'). vm_compute. reflexivity.
Qed.


End Properties.

(* ------------------------------------------------------------------ *)
(** ** The properties at concrete command lines *)

(** C1 as stated fails: this argument is a JSON object whose [text] is
    the string [hi], as decoding it without a limit on digits shows, but
    its other member is an integer of 4301 digits, which [int()] refuses:
    the run is ended by [ValueError] and prints nothing. *)
Lemma C1_counterexample :
  (exists d,
     json_loads 1 0 (J "{'text': 'hi', 'n': " ++ copies 4301 (ord "7") ++ U "}")
       = Value (PDict d) /\
     dict_lookup d (U "text") = Some (PStr (U "hi"))) /\
  run_script cpython
    (argv_only [echo_py; J "{'text': 'hi', 'n': " ++ copies 4301 (ord "7") ++ U "}"])
  = crashed ValueError.
Proof.
  split.
  - eexists. split; [vm_compute; reflexivity | vm_compute; reflexivity].
  - vm_compute. reflexivity.
Qed.

Lemma C1_witness :
  (first_arg hi_world = Some (J "{'text': 'hi'}") /\
   decoded cpython hi_world (J "{'text': 'hi'}")
     = Value (PDict [(U "text", PStr (U "hi"))])) /\
  (exists line,
     run_script cpython hi_world = printed line /\
     line = json_dumps [(U "content", U "echo: " ++ U "hi")] /\
     Forall printable_ascii line /\
     (Forall is_plain (U "hi") -> line = J "{'content': 'echo: " ++ U "hi" ++ J "'}") /\
     (Forall is_scalar (U "hi") ->
      forall dp m,
        json_loads (S dp) m line
        = Value (PDict [(U "content", PStr (U "echo: " ++ U "hi"))]))) /\
  (forall w', first_arg w' = Some escapes_argument ->
              run_script cpython w' = printed escapes_line).
Proof.
  split; [split; vm_compute; reflexivity|].
  apply (C1_text_string_is_echoed cpython hi_world
           (J "{'text': 'hi'}") [(U "text", PStr (U "hi"))] (U "hi"));
    vm_compute; reflexivity.
Defined.

(** C2 as stated fails: a text of 1100 opening brackets is not JSON, as
    an interpreter with room for 2000 levels finds, but in CPython the
    scanner meets the recursion limit before it meets the end of the
    text: the run is ended by [RecursionError], which the handler does
    not catch. *)
Lemma C2_counterexample :
  json_loads 2000 4300 (copies 1100 (ord "[")) = RaisesJSONDecodeError /\
  run_script cpython (argv_only [echo_py; copies 1100 (ord "[")])
  = crashed RecursionError.
Proof. split; vm_compute; reflexivity. Qed.

Lemma C2_witness :
  decoded cpython (argv_only [echo_py; U "not-json"]) (U "not-json")
    = RaisesJSONDecodeError /\
  run_script cpython (argv_only [echo_py; U "not-json"])
    = printed (J "{'content': 'echo: '}") /\
  uncaught (run_script cpython (argv_only [echo_py; U "not-json"])) = None /\
  exit_status (run_script cpython (argv_only [echo_py; U "not-json"])) = 0%Z.
Proof.
  split; [vm_compute; reflexivity|].
  apply (C2_malformed_json_falls_back cpython
           (argv_only [echo_py; U "not-json"]) (U "not-json"));
    vm_compute; reflexivity.
Defined.

(** C3 as stated fails: the argument [5] is decoded, is not an object,
    and the run ends with an uncaught [AttributeError] and status 1. *)
Lemma C3_counterexample :
  uncaught (run_script cpython (argv_only [echo_py; U "5"]))
    = Some AttributeError /\
  exit_status (run_script cpython (argv_only [echo_py; U "5"])) <> 0%Z.
Proof. split; [vm_compute; reflexivity | vm_compute; discriminate]. Qed.

Lemma C3_witness :
  uncaught (run_script cpython (argv_only [echo_py; U "{"])) = None /\
  exit_status (run_script cpython (argv_only [echo_py; U "{"])) = 0%Z.
Proof.
  apply (C3_described_inputs_exit_zero cpython (argv_only [echo_py; U "{"])).
  right. exists (U "{"). split; [reflexivity|].
  left. vm_compute. reflexivity.
Defined.

Lemma C5_witness :
  io (run_script cpython hi_world) <> [] /\
  exists line str,
    io (run_script cpython hi_world) = [Write Stdout (line ++ [10])] /\
    ~ In 10 line /\
    forall d m, json_loads (S d) m line = Value (PDict [(U "content", PStr str)]).
Proof.
  assert (NE : io (run_script cpython hi_world) <> [])
    by (vm_compute; discriminate).
  split; [exact NE|].
  exact (C5_output_is_one_json_record cpython hi_world NE).
Defined.

Lemma C6_witness :
  run_script cpython (argv_only [echo_py]) = printed (J "{'content': 'echo: '}").
Proof.
  apply (C6_no_argument cpython (argv_only [echo_py])).
  simpl. lia.
Defined.

(** C7 as stated fails: this argument is a JSON object without the key
    [text], as decoding it without a limit on digits shows, but its one
    member is an integer of 4301 digits: the run is ended by
    [ValueError] and prints nothing. *)
Lemma C7_counterexample :
  (exists d,
     json_loads 1 0 (J "{'other': " ++ copies 4301 (ord "7") ++ U "}")
       = Value (PDict d) /\
     dict_lookup d (U "text") = None) /\
  run_script cpython
    (argv_only [echo_py; J "{'other': " ++ copies 4301 (ord "7") ++ U "}"])
  = crashed ValueError.
Proof.
  split.
  - eexists. split; [vm_compute; reflexivity | vm_compute; reflexivity].
  - vm_compute. reflexivity.
Qed.

Lemma C7_witness :
  decoded cpython (argv_only [echo_py; J "{'other': 'x'}"]) (J "{'other': 'x'}")
    = Value (PDict [(U "other", PStr (U "x"))]) /\
  run_script cpython (argv_only [echo_py; J "{'other': 'x'}"])
    = printed (J "{'content': 'echo: '}").
Proof.
  split; [vm_compute; reflexivity|].
  apply (C7_object_without_text cpython
           (argv_only [echo_py; J "{'other': 'x'}"]) (J "{'other': 'x'}")
           [(U "other", PStr (U "x"))]);
    vm_compute; reflexivity.
Defined.

Lemma C8_witness :
  (forall d m, json_loads (S d) m (J "{'text': 5}")
               = Value (PDict [(U "text", PInt 5)])) /\
  run_script cpython (argv_only [echo_py; J "{'text': 5}"])
    = printed (J "{'content': 'echo: 5'}").
Proof.
  apply (C8_number_text cpython (argv_only [echo_py; J "{'text': 5}"])).
  reflexivity.
Defined.

(** C9 as stated fails: the [text] of this argument is a JSON number, an
    integer of 4301 digits, and the run fails: [int()] refuses the
    digits, and the run is ended by [ValueError] before anything is
    converted or printed. *)
Lemma C9_counterexample :
  (exists z,
     json_loads 1 0 (J "{'text': " ++ copies 4301 (ord "7") ++ U "}")
       = Value (PDict [(U "text", PInt z)])) /\
  run_script cpython
    (argv_only [echo_py; J "{'text': " ++ copies 4301 (ord "7") ++ U "}"])
  = crashed ValueError.
Proof.
  split.
  - eexists. vm_compute. reflexivity.
  - vm_compute. reflexivity.
Qed.

Lemma C9_witness :
  run_script cpython (argv_only [echo_py; J "{'text': null}"])
    = printed (J "{'content': 'echo: None'}") /\
  run_script cpython (argv_only [echo_py; J "{'text': true}"])
    = printed (J "{'content': 'echo: True'}") /\
  (exists digits,
     run_script cpython (argv_only [echo_py; J "{'text': -1205}"])
       = printed (J "{'content': 'echo: " ++ digits ++ J "'}") /\
     int_of_lexeme digits = (-1205)%Z) /\
  run_script cpython (argv_only [echo_py; nested_argument]) = printed nested_line.
Proof.
  split; [|split; [|split]].
  - destruct (C9_text_goes_through_str cpython
                (argv_only [echo_py; J "{'text': null}"]) (J "{'text': null}")
                [(U "text", PNone)] PNone) as ((_ & N & _) & _);
      [vm_compute; reflexivity .. |].
    exact (N eq_refl).
  - destruct (C9_text_goes_through_str cpython
                (argv_only [echo_py; J "{'text': true}"]) (J "{'text': true}")
                [(U "text", PBool true)] (PBool true)) as ((_ & _ & T & _) & _);
      [vm_compute; reflexivity .. |].
    exact (T eq_refl).
  - destruct (C9_text_goes_through_str cpython
                (argv_only [echo_py; J "{'text': -1205}"]) (J "{'text': -1205}")
                [(U "text", PInt (-1205))] (PInt (-1205)))
      as ((_ & _ & _ & _ & I & _) & _);
      [vm_compute; reflexivity .. |].
    exact (I (-1205)%Z eq_refl).
  - destruct (C9_text_goes_through_str cpython
                (argv_only [echo_py; J "{'text': null}"]) (J "{'text': null}")
                [(U "text", PNone)] PNone) as (_ & S);
      [vm_compute; reflexivity .. |].
    apply S; [reflexivity | vm_compute; lia].
Defined.



(* ------------------------------------------------------------------ *)
(** ** Further properties of the script *)

Section Extras.

Variable interp : interpreter.

Local Abbreviation run := (run_script interp).

(** X1. A run ends with a non-zero status exactly when [json.loads]
    returns something that is not an object, or meets the recursion
    limit, or is refused the digits of an integer; the run is then ended
    by [AttributeError], [RecursionError] or [ValueError] in that order,
    and nothing has been written. *)
Theorem X1_crash_conditions (w : world) :
  (exit_status (run w) <> 0%Z <->
   exists A, first_arg w = Some A /\
     ((exists v, decoded interp w A = Value v /\ is_dict v = false) \/
      decoded interp w A = RaisesRecursionError \/
      decoded interp w A = RaisesValueError)) /\
  (forall A v, first_arg w = Some A -> decoded interp w A = Value v ->
               is_dict v = false -> run w = crashed AttributeError) /\
  (forall A, first_arg w = Some A -> decoded interp w A = RaisesRecursionError ->
             run w = crashed RecursionError) /\
  (forall A, first_arg w = Some A -> decoded interp w A = RaisesValueError ->
             run w = crashed ValueError).
Proof.
  split; [split|].
  - intros NZ. destruct (first_arg w) as [A|] eqn:FA.
    + exists A. split; [reflexivity|].
      destruct (decoded interp w A) as [v| | | |] eqn:L.
      * destruct (is_dict v) eqn:D; [|left; exists v; auto].
        destruct v; try discriminate D.
        rewrite (run_object _ w A _ FA L) in NZ. exfalso. apply NZ. reflexivity.
      * rewrite (run_undecodable _ w A FA L) in NZ. exfalso. apply NZ. reflexivity.
      * right. left. reflexivity.
      * right. right. reflexivity.
      * exfalso. exact (json_loads_total _ _ A L).
    + rewrite (run_without_argument _ w FA) in NZ. exfalso. apply NZ. reflexivity.
  - intros (A & FA & [(v & L & D) | [L | L]]).
    + rewrite (run_not_object _ w A v FA L D). discriminate.
    + rewrite (run_too_deep _ w A FA L). discriminate.
    + rewrite (run_too_many_digits _ w A FA L). discriminate.
  - split; [|split].
    + intros A v FA L D. exact (run_not_object _ w A v FA L D).
    + intros A FA L. exact (run_too_deep _ w A FA L).
    + intros A FA L. exact (run_too_many_digits _ w A FA L).
Qed.


(** X4. A text made of printable ASCII characters other than the double
    quote and the backslash appears in the printed line as it is. *)
Theorem X4_plain_text_verbatim (w : world) (A : pystr)
    (d : list (pystr * pyval)) (s : pystr) :
  first_arg w = Some A ->
  decoded interp w A = Value (PDict d) ->
  dict_lookup d (U "text") = Some (PStr s) ->
  Forall is_plain s ->
  stdout_of (io (run w)) = J "{'content': 'echo: " ++ s ++ J "'}" ++ [10].
Proof.
  intros FA L T P.
  rewrite (run_object _ w A d FA L), T.
  cbn [printed io stdout_of py_str]. rewrite app_nil_r, echo_line_text.
  rewrite (encoded_plain s P), <- !app_assoc. reflexivity.
Qed.

(** X5. The line a run prints, given back as the argument of another run,
    is an object without the key [text]: that run prints the line with
    the bare prefix. *)
Theorem X5_output_fed_back (w w' : world) (line : pystr) :
  io (run w) = [Write Stdout (line ++ [10])] ->
  first_arg w' = Some line ->
  run w' = printed bare_line.
Proof.
  intros O FA.
  destruct (run_cases interp w) as [[s R] | (e & R & _)];
    rewrite R in O; [|discriminate O].
  change (io (printed (echo_line s)))
    with [Write Stdout (echo_line s ++ [10])] in O.
  assert (E : echo_line s ++ [10] = line ++ [10]) by congruence.
  apply app_inv_tail in E. subst line.
  destruct (loads_echo_line s) as [str L].
  rewrite (run_object _ w' _ _ FA (decoded_any interp w' _ _ L)). reflexivity.
Qed.

(** X6. An argument that begins with a byte-order mark is refused by
    [json.loads] whatever follows, so the line with the bare prefix is
    printed. *)
Theorem X6_byte_order_mark_falls_back (w : world) (rest : pystr) :
  first_arg w = Some (65279 :: rest) ->
  run w = printed bare_line.
Proof.
  intros FA.
  rewrite (run_undecodable _ w _ FA (loads_bom _ _ rest)). reflexivity.
Qed.

(** X7. An argument that is empty or made of white space only is not a
    JSON document: the line with the bare prefix is printed. *)
Theorem X7_blank_argument_falls_back (w : world) (A : pystr) :
  first_arg w = Some A ->
  Forall (fun c => is_ws c = true) A ->
  run w = printed bare_line.
Proof.
  intros FA B.
  rewrite (run_undecodable _ w A FA (loads_blank _ _ A B)). reflexivity.
Qed.

(** X9. When the text is a string of [n] characters, what is written has
    between [n + 22] and [12 * n + 22] characters: each character of the
    text takes from one to twelve in the printed line. *)
Theorem X9_output_length (w : world) (A : pystr)
    (d : list (pystr * pyval)) (s : pystr) :
  first_arg w = Some A ->
  decoded interp w A = Value (PDict d) ->
  dict_lookup d (U "text") = Some (PStr s) ->
  (length s + 22 <= length (stdout_of (io (run w))) <= 12 * length s + 22)%nat.
Proof.
  intros FA L T.
  rewrite (run_object _ w A d FA L), T.
  cbn [printed io stdout_of py_str]. rewrite app_nil_r, echo_line_text.
  rewrite !length_app. pose proof (encoded_length s) as E.
  change (length (J "{'content': 'echo: ")) with 19%nat.
  change (length (J "'}")) with 2%nat. cbn [length]. lia.
Qed.

(** X3. When the text is a string of Unicode scalar values (no
    surrogates), decoding the printed line with [json.loads] gives back
    the record whose content is [echo: ] followed by exactly that text. *)
Theorem X3_scalar_text_round_trip (w : world) (A : pystr)
    (d : list (pystr * pyval)) (s : pystr) :
  first_arg w = Some A ->
  decoded interp w A = Value (PDict d) ->
  dict_lookup d (U "text") = Some (PStr s) ->
  Forall is_scalar s ->
  exists line,
    io (run w) = [Write Stdout (line ++ [10])] /\
    forall dp m,
      json_loads (S dp) m line
      = Value (PDict [(U "content", PStr (U "echo: " ++ s))]).
Proof.
  intros FA L T SC. exists (echo_line s). split.
  - rewrite (run_object _ w A d FA L), T. reflexivity.
  - apply loads_echo_line_as.
    change (J "'}") with (dquote :: U "}").
    apply scanstring_encoded_scalar.
    apply Forall_app. split; [apply echo_prefix_scalar | exact SC].
Qed.

(** X8. For every integer [z], of either sign, the argument whose [text]
    is [z] written in decimal prints the line whose content is [echo: ]
    followed by the same decimal digits when the digits are within the
    limit of the interpreter, as they are when there are at most 640; when
    they are not, the run is ended by [ValueError]. *)
Theorem X8_integer_text_is_echoed (w : world) (z : Z) :
  first_arg w = Some (int_argument z) ->
  run w =
  if digits_refused (int_max_str_digits interp (os_environ w))
       (count_digits (int_str z))
  then crashed ValueError
  else printed (J "{'content': 'echo: " ++ int_str z ++ J "'}").
Proof.
  intros FA.
  assert (L : decoded interp w (int_argument z)
              = if digits_refused (int_max_str_digits interp (os_environ w))
                     (count_digits (int_str z))
                then RaisesValueError
                else Value (PDict [(U "text", PInt z)]))
    by apply loads_int_argument.
  destruct (digits_refused _ _).
  - exact (run_too_many_digits _ w _ FA L).
  - rewrite (run_object _ w _ _ FA L).
    cbn [dict_lookup pystr_eqb]. change (pystr_eqb (U "text") (U "text")) with true.
    cbv iota. cbn [py_str py_repr].
    rewrite echo_line_text, (encoded_plain _ (int_str_plain z)). reflexivity.
Qed.

(** X10. An argument made by [json.dumps] from the record with the one
    key [text] and a text [s] without surrogates is answered by what
    [json.dumps] makes of the record whose content is [echo: ] followed
    by [s]: nothing of the text is lost or altered on the way. *)
Theorem X10_dumped_argument_is_echoed (w : world) (s : pystr) :
  first_arg w = Some (json_dumps [(U "text", s)]) ->
  Forall is_scalar s ->
  run w = printed (json_dumps [(U "content", U "echo: " ++ s)]).
Proof.
  intros FA SC.
  rewrite (run_object _ w _ _ FA
             (decoded_any interp w _ _ (fun d m => loads_dumps_text d m s SC))).
  reflexivity.
Qed.

(** X11. When the object gives the key [text] twice, the second value is
    the one echoed; the first leaves no trace in the output. *)
Theorem X11_repeated_text_last_wins (w : world) (a b : pystr) :
  first_arg w = Some (J "{'text': '" ++ flat_map encode_char a ++ J "', 'text': '"
                        ++ flat_map encode_char b ++ J "'}") ->
  Forall is_scalar a -> Forall is_scalar b ->
  run w = printed (json_dumps [(U "content", U "echo: " ++ b)]).
Proof.
  intros FA SA SB.
  rewrite (run_object _ w _ _ FA
             (decoded_any interp w _ _
                (fun d m => loads_text_twice d m a b SA SB))).
  reflexivity.
Qed.

(** X13. Two runs whose texts are strings without surrogates write the
    same output only if the texts are the same: the text can always be
    told from the line. *)
Theorem X13_text_is_determined_by_output (w w' : world) (A A' : pystr)
    (d d' : list (pystr * pyval)) (s s' : pystr) :
  first_arg w = Some A -> decoded interp w A = Value (PDict d) ->
  dict_lookup d (U "text") = Some (PStr s) ->
  first_arg w' = Some A' -> decoded interp w' A' = Value (PDict d') ->
  dict_lookup d' (U "text") = Some (PStr s') ->
  Forall is_scalar s -> Forall is_scalar s' ->
  stdout_of (io (run w)) = stdout_of (io (run w')) ->
  s = s'.
Proof.
  intros FA L T FA' L' T' SC SC' E.
  rewrite (run_object _ w A d FA L), T in E.
  rewrite (run_object _ w' A' d' FA' L'), T' in E.
  cbn [printed io stdout_of py_str] in E. rewrite !app_nil_r in E.
  apply app_inv_tail in E.
  exact (echo_line_injective s s' SC SC' E).
Qed.

(** X12. Spaces, tabs and line ends before and after the document in the
    argument change nothing: in the same environment the run ends as it
    does without them, whether the document is well formed or not. *)
Theorem X12_surrounding_space_is_ignored (w w' : world) (before A after : pystr) :
  first_arg w = Some (before ++ A ++ after) ->
  first_arg w' = Some A ->
  os_environ w = os_environ w' ->
  blank before -> blank after ->
  run w = run w'.
Proof.
  intros FA FA' EV B1 B2.
  assert (E : decoded interp w (before ++ A ++ after) = decoded interp w' A).
  { unfold decoded. rewrite EV, (loads_leading_space _ _ before _ B1).
    apply loads_trailing_space. exact B2. }
  destruct (decoded interp w' A) as [v| | | |] eqn:L.
  - destruct (is_dict v) eqn:D.
    + destruct v; try discriminate D.
      rewrite (run_object _ w _ _ FA E), (run_object _ w' _ _ FA' L).
      reflexivity.
    + rewrite (run_not_object _ w _ v FA E D), (run_not_object _ w' _ v FA' L D).
      reflexivity.
  - rewrite (run_undecodable _ w _ FA E), (run_undecodable _ w' _ FA' L).
    reflexivity.
  - rewrite (run_too_deep _ w _ FA E), (run_too_deep _ w' _ FA' L).
    reflexivity.
  - rewrite (run_too_many_digits _ w _ FA E), (run_too_many_digits _ w' _ FA' L).
    reflexivity.
  - exfalso. exact (json_loads_total _ _ A L).
Qed.

End Extras.

(* ------------------------------------------------------------------ *)
(** ** The further properties at concrete command lines *)

Lemma X3_witness :
  decoded cpython (argv_only [echo_py; J "{'text': '\u00e9\ud83d\ude00'}"])
    (J "{'text': '\u00e9\ud83d\ude00'}")
    = Value (PDict [(U "text", PStr [233; 128512])]) /\
  exists line,
    io (run_script cpython
          (argv_only [echo_py; J "{'text': '\u00e9\ud83d\ude00'}"]))
      = [Write Stdout (line ++ [10])] /\
    forall dp m,
      json_loads (S dp) m line
      = Value (PDict [(U "content", PStr (U "echo: " ++ [233; 128512]))]).
Proof.
  split; [vm_compute; reflexivity|].
  apply (X3_scalar_text_round_trip cpython
           (argv_only [echo_py; J "{'text': '\u00e9\ud83d\ude00'}"])
           (J "{'text': '\u00e9\ud83d\ude00'}")
           [(U "text", PStr [233; 128512])] [233; 128512]);
    [vm_compute; reflexivity .. |].
  repeat constructor; unfold is_scalar; lia.
Defined.

Lemma X4_witness :
  Forall is_plain (U "hi there") /\
  stdout_of (io (run_script cpython
                   (argv_only [echo_py; J "{'text': 'hi there'}"])))
    = J "{'content': 'echo: " ++ U "hi there" ++ J "'}" ++ [10].
Proof.
  assert (P : Forall is_plain (U "hi there")).
  { repeat constructor; unfold backslash, dquote; try lia; discriminate. }
  split; [exact P|].
  apply (X4_plain_text_verbatim cpython
           (argv_only [echo_py; J "{'text': 'hi there'}"])
           (J "{'text': 'hi there'}") [(U "text", PStr (U "hi there"))]
           (U "hi there"));
    [vm_compute; reflexivity .. |].
  exact P.
Defined.

Lemma X5_witness :
  io (run_script cpython hi_world)
    = [Write Stdout (J "{'content': 'echo: hi'}" ++ [10])] /\
  run_script cpython (argv_only [echo_py; J "{'content': 'echo: hi'}"])
    = printed bare_line.
Proof.
  split; [vm_compute; reflexivity|].
  apply (X5_output_fed_back cpython hi_world
           (argv_only [echo_py; J "{'content': 'echo: hi'}"])
           (J "{'content': 'echo: hi'}"));
    vm_compute; reflexivity.
Defined.

Lemma X6_witness :
  run_script cpython (argv_only [echo_py; 65279 :: J "{'text': 'hi'}"])
    = printed bare_line.
Proof.
  apply (X6_byte_order_mark_falls_back cpython
           (argv_only [echo_py; 65279 :: J "{'text': 'hi'}"]) (J "{'text': 'hi'}")).
  reflexivity.
Defined.

Lemma X7_witness :
  run_script cpython (argv_only [echo_py; []]) = printed bare_line /\
  run_script cpython (argv_only [echo_py; [32; 9; 10; 13]]) = printed bare_line.
Proof.
  split.
  - apply (X7_blank_argument_falls_back cpython (argv_only [echo_py; []]) []);
      [reflexivity | constructor].
  - apply (X7_blank_argument_falls_back cpython
             (argv_only [echo_py; [32; 9; 10; 13]]) [32; 9; 10; 13]);
      [reflexivity | repeat constructor].
Defined.

Lemma X8_witness :
  int_argument (-1205) = J "{'text': -1205}" /\
  run_script cpython (argv_only [echo_py; J "{'text': -1205}"])
    = printed (J "{'content': 'echo: -1205'}").
Proof.
  split; [vm_compute; reflexivity|].
  exact (X8_integer_text_is_echoed cpython
           (argv_only [echo_py; J "{'text': -1205}"]) (-1205)%Z eq_refl).
Defined.

Lemma X9_witness :
  (length ([10; 233; 128512]%N : pystr) + 22
   <= length (stdout_of (io (run_script cpython
                (argv_only [echo_py; J "{'text': '\n\u00e9\ud83d\ude00'}"]))))
   <= 12 * length ([10; 233; 128512]%N : pystr) + 22)%nat.
Proof.
  apply (X9_output_length cpython
           (argv_only [echo_py; J "{'text': '\n\u00e9\ud83d\ude00'}"])
           (J "{'text': '\n\u00e9\ud83d\ude00'}")
           [(U "text", PStr [10; 233; 128512])] [10; 233; 128512]);
    vm_compute; reflexivity.
Defined.

Lemma X10_witness :
  json_dumps [(U "text", [104; 233; 10])] = J "{'text': 'h\u00e9\n'}" /\
  run_script cpython (argv_only [echo_py; J "{'text': 'h\u00e9\n'}"])
    = printed (J "{'content': 'echo: h\u00e9\n'}").
Proof.
  split; [vm_compute; reflexivity|].
  apply (X10_dumped_argument_is_echoed cpython
           (argv_only [echo_py; J "{'text': 'h\u00e9\n'}"]) [104; 233; 10]).
  - vm_compute. reflexivity.
  - repeat constructor; unfold is_scalar; lia.
Defined.

Lemma X11_witness :
  run_script cpython (argv_only [echo_py; J "{'text': 'a', 'text': 'b'}"])
    = printed (J "{'content': 'echo: b'}").
Proof.
  apply (X11_repeated_text_last_wins cpython
           (argv_only [echo_py; J "{'text': 'a', 'text': 'b'}"]) (U "a") (U "b")).
  - vm_compute. reflexivity.
  - repeat constructor; unfold is_scalar; cbn; lia.
  - repeat constructor; unfold is_scalar; cbn; lia.
Defined.

Lemma X12_witness :
  run_script cpython
    (argv_only [echo_py; [32; 10] ++ J "{'text': 'hi'}" ++ [13; 10; 9]])
  = run_script cpython hi_world.
Proof.
  apply (X12_surrounding_space_is_ignored cpython
           (argv_only [echo_py; [32; 10] ++ J "{'text': 'hi'}" ++ [13; 10; 9]])
           hi_world [32; 10] (J "{'text': 'hi'}") [13; 10; 9]).
  - reflexivity.
  - reflexivity.
  - reflexivity.
  - repeat constructor.
  - repeat constructor.
Defined.

Lemma X13_witness :
  stdout_of (io (run_script cpython hi_world))
  = stdout_of (io (run_script cpython
                     (argv_only [echo_py; J " {'a': [], 'text': 'hi'}"]))) /\
  U "hi" = [104; 105].
Proof.
  assert (E : stdout_of (io (run_script cpython hi_world))
    = stdout_of (io (run_script cpython
                       (argv_only [echo_py; J " {'a': [], 'text': 'hi'}"]))))
    by (vm_compute; reflexivity).
  split; [exact E|].
  apply (X13_text_is_determined_by_output cpython
           hi_world (argv_only [echo_py; J " {'a': [], 'text': 'hi'}"])
           (J "{'text': 'hi'}") (J " {'a': [], 'text': 'hi'}")
           [(U "text", PStr (U "hi"))]
           [(U "a", PList []); (U "text", PStr [104; 105])]
           (U "hi") [104; 105]);
    [vm_compute; reflexivity .. | | | exact E];
    repeat constructor; unfold is_scalar; cbn; lia.
Defined.
